(** * KubricSequence: a shallow embedding of [kubric/dataset.py]

    The file embeds the sequence sampler of the Kubric data set reader: the
    camera intrinsics, the sequence length, the depth resolver
    [_image_space_to_depth] and the frame assembler [__getitem__], and
    proves properties of them.

    Numbers.  A NumPy/Python float is represented by [fval]: the rational a
    finite binary64 value denotes, or one of the IEEE 754 special values
    (the two infinities and not-a-number).  Arithmetic on finite values is
    exact; the special values follow IEEE 754.  Rounding error, overflow
    and the sign of zero are outside the model.

    Control.  A Python computation is a run in the monad [M]: the list of
    objects it built, in program order, and either its value or the
    exception it raised.

    Libraries.  The NumPy and SciPy operations the module calls are written
    out as far as the module relies on them: subscripts, boolean masks,
    [np.round], [np.arange], and the linear method of
    [RegularGridInterpolator].  The [datastructures] module of the
    repository is an interface here. *)

From Stdlib Require Import ZArith QArith Qcanon Qround List Bool String Lia Lqa.
From Stdlib Require Import Orders Sorted Permutation Mergesort.
From Stdlib Require OrderedTypeEx.
Import ListNotations.

Local Open Scope Z_scope.

(** ** Floating-point values *)

Module Ieee.

Inductive fval : Type :=
| Fin (q : Qc)
| PInf
| NInf
| NaN.

(** The rational of an integer. *)
Definition Qc_of_Z (z : Z) : Qc := Q2Qc (inject_Z z).

(** Conversion of a Python [int] (or an integer array entry) to a float. *)
Definition of_int (z : Z) : fval := Fin (Qc_of_Z z).

Definition zero : fval := Fin 0%Qc.
Definition one : fval := Fin 1%Qc.

Definition isnan (a : fval) : bool :=
  match a with NaN => true | _ => false end.

Definition isfinite (a : fval) : bool :=
  match a with Fin _ => true | _ => false end.

(** Sign of a rational: [Lt] negative, [Eq] zero, [Gt] positive. *)
Definition Qc_sign (q : Qc) : comparison := (q ?= 0)%Qc.

Definition fneg (a : fval) : fval :=
  match a with
  | Fin q => Fin (- q)%Qc
  | PInf => NInf
  | NInf => PInf
  | NaN => NaN
  end.

Definition fadd (a b : fval) : fval :=
  match a, b with
  | NaN, _ | _, NaN => NaN
  | PInf, NInf | NInf, PInf => NaN
  | PInf, _ | _, PInf => PInf
  | NInf, _ | _, NInf => NInf
  | Fin x, Fin y => Fin (x + y)%Qc
  end.

Definition fsub (a b : fval) : fval := fadd a (fneg b).

(** An infinity scaled by a finite factor: not-a-number for a zero factor. *)
Definition inf_times (positive : bool) (q : Qc) : fval :=
  match Qc_sign q with
  | Eq => NaN
  | Gt => if positive then PInf else NInf
  | Lt => if positive then NInf else PInf
  end.

Definition fmul (a b : fval) : fval :=
  match a, b with
  | NaN, _ | _, NaN => NaN
  | PInf, PInf | NInf, NInf => PInf
  | PInf, NInf | NInf, PInf => NInf
  | PInf, Fin q | Fin q, PInf => inf_times true q
  | NInf, Fin q | Fin q, NInf => inf_times false q
  | Fin x, Fin y => Fin (x * y)%Qc
  end.

(** NumPy division: a zero divisor yields an infinity or not-a-number
    (with a warning), it does not raise. *)
Definition fdiv (a b : fval) : fval :=
  match a, b with
  | NaN, _ | _, NaN => NaN
  | (PInf | NInf), (PInf | NInf) => NaN
  | PInf, Fin q => match Qc_sign q with Lt => NInf | _ => PInf end
  | NInf, Fin q => match Qc_sign q with Lt => PInf | _ => NInf end
  | Fin _, (PInf | NInf) => zero
  | Fin x, Fin y =>
      match Qc_sign y with
      | Eq => match Qc_sign x with Eq => NaN | Gt => PInf | Lt => NInf end
      | _ => Fin (x / y)%Qc
      end
  end.

(** [a < b]; false as soon as one side is not-a-number. *)
Definition flt (a b : fval) : bool :=
  match a, b with
  | NaN, _ | _, NaN => false
  | _, NInf => false
  | NInf, _ => true
  | PInf, _ => false
  | _, PInf => true
  | Fin x, Fin y => match (x ?= y)%Qc with Lt => true | _ => false end
  end.

Definition fgt (a b : fval) : bool := flt b a.

Definition feqb (a b : fval) : bool :=
  match a, b with
  | Fin x, Fin y => Qeq_bool x y
  | PInf, PInf | NInf, NInf => true
  | _, _ => false
  end.

End Ieee.
Export Ieee.

(** ** Python: exceptions, observable construction events, the run monad *)

Module Py.

(** The three assertion messages of the module, with the offending value
    each f-string prints. *)
Inductive assert_msg : Type :=
| image_space_positions_shape (shape : nat * nat)
    (* "image_space_positions must have shape (N, 2), got {shape}" *)
| depth_image_shape (shape : nat * nat * nat)
    (* "depth_image must have shape (H, W, 1), got {shape}" *)
| target_depths_contains_NaNs (depths : list (list fval)).
    (* "target_depths contains NaNs, {unoccluded_target_depths}" *)

Inductive exn : Type :=
| AssertionError (msg : assert_msg)
| IndexError
| NameError
| TypeError
| ValueError
| ZeroDivisionError.

(** What a run has built so far, in program order. *)
Inductive event : Type :=
| Interpolator_built
| Interpolator_evaluated
| Pose_built
| PointCloud_built
| ParticlePoints_built
| ParticleFrame_built.

Inductive result (A : Type) : Type :=
| Ok (a : A)
| Raise (e : exn).
Arguments Ok {A} a.
Arguments Raise {A} e.

(** A run: the events it performed and how it ended. *)
Definition M (A : Type) : Type := (list event * result A)%type.

Definition ret {A} (a : A) : M A := ([], Ok a).
Definition raise {A} (e : exn) : M A := ([], Raise e).
Definition emit (ev : event) : M unit := ([ev], Ok tt).

Definition bind {A B} (m : M A) (k : A -> M B) : M B :=
  match m with
  | (log, Raise e) => (log, Raise e)
  | (log, Ok a) => let (log', r) := k a in (log ++ log', r)
  end.

Definition assert (b : bool) (msg : assert_msg) : M unit :=
  if b then ret tt else raise (AssertionError msg).

(** Sequence subscript [l[idx]] of lists and arrays: a negative index
    counts from the end, anything out of range raises [IndexError]. *)
Definition normalize_index (n : nat) (idx : Z) : M nat :=
  if (0 <=? idx) && (idx <? Z.of_nat n) then ret (Z.to_nat idx)
  else if (- Z.of_nat n <=? idx) && (idx <? 0) then ret (Z.to_nat (Z.of_nat n + idx))
  else raise IndexError.

Definition getitem {A} (l : list A) (idx : Z) : M A :=
  bind (normalize_index (List.length l) idx)
       (fun i => match nth_error l i with
                 | Some a => ret a
                 | None => raise IndexError
                 end).

(** Built-in [len]: the object's [__len__] must not be negative. *)
Definition len (dunder_len : Z) : M Z :=
  if dunder_len <? 0 then raise ValueError else ret dunder_len.

(** Python true division of numbers: a zero divisor raises. *)
Definition truediv (a b : fval) : M fval :=
  if feqb b zero then raise ZeroDivisionError else ret (fdiv a b).



End Py.
Export Py.

Notation "x <- m ;; k" := (bind m (fun x => k))
  (at level 61, m at next level, right associativity).
Notation "m ;;; k" := (bind m (fun _ => k))
  (at level 61, right associativity).

(** ** NumPy: arrays with an explicit shape and the operations used *)

Module Np.

(** A 2-d array of shape [(length rows2, cols2)]. *)
Record array2 (A : Type) : Type := mk_array2 {
  cols2 : nat;
  rows2 : list (list A)
}.
Arguments mk_array2 {A} cols2 rows2.
Arguments cols2 {A} a.
Arguments rows2 {A} a.

(** A 3-d array of shape [(length planes3, dim1, dim2)]. *)
Record array3 (A : Type) : Type := mk_array3 {
  dim1 : nat;
  dim2 : nat;
  planes3 : list (list (list A))
}.
Arguments mk_array3 {A} dim1 dim2 planes3.
Arguments dim1 {A} a.
Arguments dim2 {A} a.
Arguments planes3 {A} a.

Definition shape2 {A} (a : array2 A) : nat * nat :=
  (List.length (rows2 a), cols2 a).

Definition shape3 {A} (a : array3 A) : nat * nat * nat :=
  (List.length (planes3 a), dim1 a, dim2 a).

(** The buffer agrees with the declared shape. *)
Definition wf2 {A} (a : array2 A) : bool :=
  forallb (fun r => Nat.eqb (List.length r) (cols2 a)) (rows2 a).

Definition wf3 {A} (a : array3 A) : bool :=
  forallb (fun p => Nat.eqb (List.length p) (dim1 a)
                    && forallb (fun r => Nat.eqb (List.length r) (dim2 a)) p)
          (planes3 a).

(** [np.arange(n)] *)
Definition arange (n : nat) : list fval :=
  map (fun k => of_int (Z.of_nat k)) (seq 0 n).

Definition half : Qc := Q2Qc (1 # 2).

(** Round half to even on an exact rational. *)
Definition round_half_even (q : Qc) : Z :=
  let f := Qfloor q in
  match (q - Qc_of_Z f ?= half)%Qc with
  | Lt => f
  | Gt => f + 1
  | Eq => if Z.even f then f else f + 1
  end.

(** [np.round(x)], zero decimals: halfway cases go to the even neighbour;
    infinities and not-a-number are returned unchanged. *)
Definition round (x : fval) : fval :=
  match x with
  | Fin q => of_int (round_half_even q)
  | other => other
  end.

(** Element [l[i]] of a 1-d buffer, a negative index counting from the end.
    Every index the interpolator forms is in range for a grid with at least
    one point; [NaN] stands for the unreachable rest. *)
Definition get {A} (d : A) (l : list A) (i : Z) : A :=
  nth (Z.to_nat (if i <? 0 then Z.of_nat (List.length l) + i else i)) l d.

Definition get2 (a : list (list fval)) (i j : Z) : fval :=
  get NaN (get [] a i) j.

(** The order [np.searchsorted] searches with: not-a-number sorts last. *)
Definition sort_lt (a b : fval) : bool :=
  flt a b || (isnan b && negb (isnan a)).

(** [np.searchsorted(grid, x)] (side "left") for an ascending [grid]: the
    number of grid points that sort strictly before [x]. *)
Definition searchsorted (grid : list fval) (x : fval) : Z :=
  Z.of_nat (List.length (filter (fun g => sort_lt g x) grid)).

(** [a[:, j]] on a 2-d array, [j] a valid column. *)
Definition column {A} (d : A) (a : array2 A) (j : nat) : list A :=
  map (fun r => nth j r d) (rows2 a).

(** [a[:, :, 0]] on a 3-d array. *)
Definition channel0 (a : array3 fval) : array2 fval :=
  mk_array2 (dim1 a) (map (map (fun px => nth 0 px NaN)) (planes3 a)).

(** [a[:, idx]] on a 3-d array: one row per plane. *)
Definition take_axis1 (a : array3 fval) (idx : Z) : M (array2 fval) :=
  i <- normalize_index (dim1 a) idx ;;
  ret (mk_array2 (dim2 a) (map (fun p => nth i p []) (planes3 a))).

(** [a[:, idx]] on a 2-d boolean array. *)
Definition take_column (a : array2 bool) (idx : Z) : M (list bool) :=
  i <- normalize_index (cols2 a) idx ;;
  ret (column false a i).

(** Rows of [l] at which [mask] holds. *)
Fixpoint select {A} (l : list A) (mask : list bool) : list A :=
  match l, mask with
  | x :: l', true :: m' => x :: select l' m'
  | _ :: l', false :: m' => select l' m'
  | _, _ => []
  end.

(** [a[mask]], boolean indexing along axis 0: the mask must have one entry
    per row. *)
Definition mask_index (a : array2 fval) (mask : list bool) : M (array2 fval) :=
  if Nat.eqb (List.length mask) (List.length (rows2 a))
  then ret (mk_array2 (cols2 a) (select (rows2 a) mask))
  else raise IndexError.

(** [np.zeros((n, m))] *)
Definition zeros (n m : nat) : array2 fval :=
  mk_array2 m (repeat (repeat zero m) n).

(** Rows of [l] at which [mask] holds replaced, in order, by [vals]. *)
Fixpoint scatter {A} (l : list A) (mask : list bool) (vals : list A) : list A :=
  match l, mask with
  | x :: l', true :: m' =>
      match vals with
      | v :: vs => v :: scatter l' m' vs
      | [] => x :: scatter l' m' []
      end
  | x :: l', false :: m' => x :: scatter l' m' vals
  | _, _ => l
  end.

(** Broadcasting of a 2-d value to shape [(k, m)]: an axis of length one is
    repeated, any other mismatch raises [ValueError]. *)
Definition broadcast_to (v : array2 fval) (k m : nat) : M (list (list fval)) :=
  let widen (r : list fval) : list fval :=
    if Nat.eqb (cols2 v) m then r else repeat (nth 0 r NaN) m in
  if (Nat.eqb (cols2 v) m || Nat.eqb (cols2 v) 1)
     && (Nat.eqb (List.length (rows2 v)) k || Nat.eqb (List.length (rows2 v)) 1)
  then ret (if Nat.eqb (List.length (rows2 v)) k
            then map widen (rows2 v)
            else repeat (widen (nth 0 (rows2 v) [])) k)
  else raise ValueError.

(** [a[mask] = v] *)
Definition mask_assign (a : array2 fval) (mask : list bool) (v : array2 fval)
  : M (array2 fval) :=
  if Nat.eqb (List.length mask) (List.length (rows2 a))
  then vals <- broadcast_to v (List.length (select (rows2 a) mask)) (cols2 a) ;;
       ret (mk_array2 (cols2 a) (scatter (rows2 a) mask vals))
  else raise IndexError.

(** [a[r, c, 0]], the value a depth map stores at row [r], column [c]. *)
Definition pixel (a : array3 fval) (r c : Z) : fval :=
  nth 0 (nth (Z.to_nat c) (nth (Z.to_nat r) (planes3 a) []) []) NaN.

(** Every entry of a 3-d array is a finite number. *)
Definition all_finite3 (a : array3 fval) : bool :=
  forallb (forallb (forallb isfinite)) (planes3 a).

(** [np.isfinite(a).all()] *)
Definition all_finite (a : array2 fval) : bool :=
  forallb (forallb isfinite) (rows2 a).

End Np.

(** ** SciPy: [interpolate.RegularGridInterpolator] on a 2-d grid

    The default method "linear", as the library's Python implementation
    evaluates it: the cell is located with [searchsorted], the four corner
    values are combined with the products of the normalised distances, and
    a point outside the grid receives [fill_value] when [bounds_error] is
    off. *)

Module Scipy.
Import Np.

Record RegularGridInterpolator : Type := mk_interpolator {
  grid0 : list fval;
  grid1 : list fval;
  values : list (list fval);
  bounds_error : bool;
  fill_value : fval
}.

(** The constructor: each axis needs as many grid points as values. *)
Definition init (points : list fval * list fval) (vals : array2 fval)
    (bounds_err : bool) : M RegularGridInterpolator :=
  if Nat.eqb (List.length (fst points)) (List.length (rows2 vals))
     && Nat.eqb (List.length (snd points)) (cols2 vals)
  then emit Interpolator_built ;;;
       ret (mk_interpolator (fst points) (snd points) (rows2 vals) bounds_err NaN)
  else raise ValueError.

(** Index of the lower edge of the cell: [searchsorted(grid, x) - 1],
    clipped to [0, grid.size - 2]. *)
Definition find_index (grid : list fval) (x : fval) : Z :=
  let size := Z.of_nat (List.length grid) in
  let i := searchsorted grid x - 1 in
  let i := if i <? 0 then 0 else i in
  if i >? size - 2 then size - 2 else i.

(** Distance to the lower edge in units of the cell width:
    [(x - grid[i]) / (grid[i + 1] - grid[i])]. *)
Definition norm_distance (grid : list fval) (x : fval) (i : Z) : fval :=
  fdiv (fsub x (get NaN grid i))
       (fsub (get NaN grid (i + 1)) (get NaN grid i)).

(** [x < grid[0]] or [x > grid[-1]] *)
Definition out_of_bounds (grid : list fval) (x : fval) : bool :=
  flt x (get NaN grid 0) || fgt x (get NaN grid (-1)).

(** Weight of an edge along one axis: [1 - y] at the lower edge, [y] at the
    upper one. *)
Definition edge_weight (upper : bool) (y : fval) : fval :=
  if upper then y else fsub one y.

Definition edges : list (bool * bool) :=
  [(false, false); (false, true); (true, false); (true, true)].

(** The sum over the four corners of the cell, accumulated from [0.]. *)
Definition evaluate_linear (vals : list (list fval)) (i0 i1 : Z) (y0 y1 : fval)
  : fval :=
  fold_left
    (fun acc e =>
       let weight := fmul (fmul one (edge_weight (fst e) y0)) (edge_weight (snd e) y1) in
       let corner := get2 vals (if fst e then i0 + 1 else i0)
                               (if snd e then i1 + 1 else i1) in
       fadd acc (fmul corner weight))
    edges zero.

Definition point_out_of_bounds (interp : RegularGridInterpolator)
    (xi : fval * fval) : bool :=
  out_of_bounds (grid0 interp) (fst xi) || out_of_bounds (grid1 interp) (snd xi).

(** The interpolated value at one query; [result[out_of_bounds] = fill_value]
    overwrites it for a query outside the grid. *)
Definition evaluate_point (interp : RegularGridInterpolator) (xi : fval * fval)
  : fval :=
  let i0 := find_index (grid0 interp) (fst xi) in
  let i1 := find_index (grid1 interp) (snd xi) in
  let y0 := norm_distance (grid0 interp) (fst xi) i0 in
  let y1 := norm_distance (grid1 interp) (snd xi) i1 in
  let result := evaluate_linear (values interp) i0 i1 y0 y1 in
  if point_out_of_bounds interp xi then fill_value interp else result.

(** [interp((q0, q1))]: one value per query.  Subscripting an empty grid
    raises; with [bounds_error] on, so does a query outside the grid. *)
Definition call (interp : RegularGridInterpolator) (q0 q1 : list fval)
  : M (list fval) :=
  match grid0 interp, grid1 interp with
  | [], _ | _, [] => raise IndexError
  | _, _ =>
      let xi := combine q0 q1 in
      if bounds_error interp && existsb (point_out_of_bounds interp) xi
      then raise ValueError
      else emit Interpolator_evaluated ;;;
           ret (map (evaluate_point interp) xi)
  end.

End Scipy.

(** ** The [datastructures] module

    [SE3] and [PointCloud] are consumed through their constructors only;
    the sampler never inspects what they build, apart from the [points]
    of a point cloud. *)

Record Intrinsics : Type := mk_intrinsics {
  fx : fval;
  fy : fval;
  cx : fval;
  cy : fval
}.

Class Datastructures : Type := {
  SE3 : Type;
  PointCloud : Type;
  from_rot_w_x_y_z_translation_x_y_z :
    fval -> fval -> fval -> fval -> fval -> fval -> fval -> SE3;
  from_field_of_view_depth_image :
    Np.array2 fval -> Intrinsics -> PointCloud;
  from_field_of_view_points_and_depth :
    Np.array2 fval -> Np.array2 fval -> nat * nat -> Intrinsics -> PointCloud;
  points : PointCloud -> Np.array2 fval
}.

(** Modelled from the spec: the particle-frame container of the absent
    [datastructures] module, "constructed from a 3-D position array + a
    parallel occlusion-flag array". *)
Record ParticleFrame : Type := mk_ParticleFrame {
  particle_points : Np.array2 fval;
  particle_is_occluded : list bool
}.

(** ** [class KubricSequence] *)

Module KubricSequence.
Import Np.

Record Camera : Type := mk_camera {
  positions : list (list fval);
  quaternions : list (list fval);
  focal_length : fval;
  sensor_width : fval
}.

Record Metadata : Type := mk_metadata {
  width : Z;
  height : Z;
  num_frames : Z
}.

(** [self.data], the unpickled bundle. *)
Record Data : Type := mk_data {
  rgb_video : list (array3 fval);
  depth_video : list (array3 fval);
  camera : Camera;
  metadata : Metadata;
  target_points : array3 fval;
  occluded : array2 bool
}.

Definition intrinsics (self : Data) : M Intrinsics :=
  let focal_length := fmul (focal_length (camera self)) (of_int 2) in
  let input_size_x := of_int (width (metadata self)) in
  let input_size_y := of_int (height (metadata self)) in
  let sensor_width := sensor_width (camera self) in
  ratio <- truediv focal_length sensor_width ;;
  half_x <- truediv input_size_x (of_int 2) ;;
  let f_x := fmul ratio half_x in
  f_y <- truediv (fmul f_x input_size_x) input_size_y ;;
  c_x <- truediv input_size_x (of_int 2) ;;
  c_y <- truediv input_size_y (of_int 2) ;;
  ret (mk_intrinsics f_x f_y c_x c_y).

Definition __len__ (self : Data) : Z :=
  num_frames (metadata self) - 1.

Definition _image_space_to_depth (image_space_positions : array2 fval)
    (depth_entries : array3 fval) (interpolation_type : string)
  : M (array2 fval) :=
  assert (Nat.eqb (cols2 image_space_positions) 2)
         (image_space_positions_shape (shape2 image_space_positions)) ;;;
  assert (Nat.eqb (dim2 depth_entries) 1)
         (depth_image_shape (shape3 depth_entries)) ;;;
  let depth_entries := channel0 depth_entries in
  let xs := arange (fst (shape2 depth_entries)) in
  let ys := arange (snd (shape2 depth_entries)) in
  depth_interpolator <- Scipy.init (xs, ys) depth_entries false ;;
  let x_queries := column NaN image_space_positions 0 in
  let y_queries := column NaN image_space_positions 1 in
  let x_queries := if String.eqb interpolation_type "nearest"
                   then map round x_queries else x_queries in
  let y_queries := if String.eqb interpolation_type "nearest"
                   then map round y_queries else y_queries in
  depths <- Scipy.call depth_interpolator y_queries x_queries ;;
  ret (mk_array2 1 (map (fun d => [d]) depths)).

Record FrameSample `{Datastructures} : Type := mk_sample {
  pose : SE3;
  pointcloud : PointCloud;
  particles : ParticleFrame;
  rgb : array3 fval
}.

Section Sampler.
Context `{DS : Datastructures}.

(** The call of [SE3.from_rot_w_x_y_z_translation_x_y_z] with the unpacked
    quaternion followed by the unpacked position: the two rows must supply
    exactly the seven arguments. *)
Definition build_pose (quaternion position : list fval) : M SE3 :=
  match quaternion ++ position with
  | [w; x; y; z; tx; ty; tz] =>
      emit Pose_built ;;;
      ret (from_rot_w_x_y_z_translation_x_y_z w x y z tx ty tz)
  | _ => raise TypeError
  end.

Definition __getitem__ (self : Data) (idx : Z) : M FrameSample :=
  rgb <- getitem (rgb_video self) idx ;;
  depth <- getitem (depth_video self) idx ;;
  position <- getitem (positions (camera self)) idx ;;
  quaternion <- getitem (quaternions (camera self)) idx ;;
  target_points <- take_axis1 (target_points self) idx ;;
  is_occluded <- take_column (occluded self) idx ;;
  unoccluded_target_points <- mask_index target_points (map negb is_occluded) ;;
  unoccluded_target_depths <-
    _image_space_to_depth unoccluded_target_points depth "nearest" ;;
  (* the message of the first assertion names an undefined variable *)
  (if Nat.eqb (List.length (rows2 unoccluded_target_depths))
              (List.length (rows2 unoccluded_target_points))
   then ret tt else raise NameError) ;;;
  assert (all_finite unoccluded_target_depths)
         (target_depths_contains_NaNs (rows2 unoccluded_target_depths)) ;;;
  pose <- build_pose quaternion position ;;
  dense_intrinsics <- intrinsics self ;;
  emit PointCloud_built ;;;
  let pointcloud := from_field_of_view_depth_image (channel0 depth) dense_intrinsics in
  sparse_intrinsics <- intrinsics self ;;
  emit ParticlePoints_built ;;;
  let unoccluded_target_points_3d :=
    from_field_of_view_points_and_depth
      unoccluded_target_points unoccluded_target_depths
      (List.length (planes3 depth), dim1 depth) sparse_intrinsics in
  let target_points_3d := zeros (List.length (rows2 target_points)) 3 in
  target_points_3d <-
    mask_assign target_points_3d (map negb is_occluded)
                (points unoccluded_target_points_3d) ;;
  emit ParticleFrame_built ;;;
  let particle_frame := mk_ParticleFrame target_points_3d is_occluded in
  ret (mk_sample DS pose pointcloud particle_frame rgb).

End Sampler.

End KubricSequence.

(** ** Vocabulary of the properties *)

Module Contract.
Import Np KubricSequence.

(** The invariant of a sequence bundle (the data model): [num_frames]
    frames in every per-frame array, [H x W x 1] depth frames with at least
    one pixel, 2-d target points and occlusion flags for the same particles
    and frames, three position and four quaternion scalars per frame. *)
Definition valid (self : Data) : bool :=
  let n := num_frames (metadata self) in
  let frames {A} (l : list A) := Z.of_nat (List.length l) =? n in
  (1 <=? n)
  && frames (rgb_video self) && frames (depth_video self)
  && frames (positions (camera self)) && frames (quaternions (camera self))
  && forallb (fun d => wf3 d && Nat.eqb (dim2 d) 1
                       && Nat.leb 1 (List.length (planes3 d)) && Nat.leb 1 (dim1 d))
             (depth_video self)
  && forallb (fun p => Nat.eqb (List.length p) 3) (positions (camera self))
  && forallb (fun q => Nat.eqb (List.length q) 4) (quaternions (camera self))
  && wf3 (target_points self)
  && (Z.of_nat (dim1 (target_points self)) =? n)
  && Nat.eqb (dim2 (target_points self)) 2
  && wf2 (occluded self)
  && (Z.of_nat (cols2 (occluded self)) =? n)
  && Nat.eqb (List.length (rows2 (occluded self)))
             (List.length (planes3 (target_points self))).

(** The interpolator the resolver builds over the pixel grid of a depth
    map. *)
Definition grid_interpolator (depth : array3 fval) : Scipy.RegularGridInterpolator :=
  Scipy.mk_interpolator (arange (List.length (planes3 depth))) (arange (dim1 depth))
                        (rows2 (channel0 depth)) false NaN.

(** Integer pixel coordinates [(x, y)] within an [H x W] depth map:
    [0 <= x <= W - 1] and [0 <= y <= H - 1]. *)
Definition in_grid (h w : nat) (x y : Z) : bool :=
  (0 <=? x) && (x <=? Z.of_nat w - 1) && (0 <=? y) && (y <=? Z.of_nat h - 1).


(** A query coordinate on a pixel centre, [k], or exactly halfway between
    two, [k + 1/2]. *)
Inductive coordinate : Type :=
| at_pixel (k : Z)
| halfway (k : Z).

Definition coordinate_value (c : coordinate) : fval :=
  match c with
  | at_pixel k => of_int k
  | halfway k => Fin (Qc_of_Z k + half)%Qc
  end.

(** The cell of a coordinate under round-half-to-even: of the two cells
    next to a halfway coordinate, the even one. *)
Definition nearest_even_cell (c : coordinate) : Z :=
  match c with
  | at_pixel k => k
  | halfway k => if Z.even k then k else k + 1
  end.

(** The coordinates the interpolator is queried with: rounded in the mode
    "nearest", as given in every other mode. *)
Definition queried (interpolation_type : string) (x : fval) : fval :=
  if String.eqb interpolation_type "nearest" then round x else x.

(** A coordinate pair [(x, y)] lies outside the pixel grid of an [H x W]
    depth map: [x] outside [0, W - 1] or [y] outside [0, H - 1]. *)
Definition outside (h w : nat) (x y : fval) : bool :=
  flt x (of_int 0) || fgt x (of_int (Z.of_nat w - 1))
  || flt y (of_int 0) || fgt y (of_int (Z.of_nat h - 1)).

(** The queries and the depths [__getitem__] resolves for the unoccluded
    particles of frame [idx]: its statements up to the call of the depth
    resolver that these depend on. *)
Definition resolved_depths (self : Data) (idx : Z)
  : M (array2 fval * array2 fval) :=
  depth <- getitem (depth_video self) idx ;;
  target_points <- take_axis1 (target_points self) idx ;;
  is_occluded <- take_column (occluded self) idx ;;
  unoccluded_target_points <- mask_index target_points (map negb is_occluded) ;;
  unoccluded_target_depths <-
    _image_space_to_depth unoccluded_target_points depth "nearest" ;;
  ret (unoccluded_target_points, unoccluded_target_depths).

End Contract.

(** ** A pinhole instance of the [datastructures] module *)

Module Pinhole.
Import Np.

(** Modelled from the spec: the pinhole unprojection of the absent
    [datastructures] module, "each pixel's (x, y, depth) converted to
    (X, Y, Z) using fx, fy, cx, cy". *)
Definition unproject (k : Intrinsics) (x y d : fval) : list fval :=
  [fdiv (fmul (fsub x (cx k)) d) (fx k);
   fdiv (fmul (fsub y (cy k)) d) (fy k);
   d].

Definition unproject_row (k : Intrinsics) (y : nat) (row : list fval)
  : list (list fval) :=
  map (fun xd => unproject k (of_int (Z.of_nat (fst xd))) (of_int (Z.of_nat y)) (snd xd))
      (combine (seq 0 (List.length row)) row).

(** Modelled from the spec: the two point-cloud constructors and the pose
    constructor of the absent [datastructures] module, the pose kept as its
    seven scalars, a point cloud as its array of 3-D points. *)
#[export] Instance pinhole : Datastructures := {
  SE3 := list fval;
  PointCloud := array2 fval;
  from_rot_w_x_y_z_translation_x_y_z w x y z tx ty tz := [w; x; y; z; tx; ty; tz];
  from_field_of_view_depth_image depth k :=
    mk_array2 3
      (List.concat (map (fun yr => unproject_row k (fst yr) (snd yr))
                   (combine (seq 0 (List.length (rows2 depth))) (rows2 depth))));
  from_field_of_view_points_and_depth pts depths _ k :=
    mk_array2 3
      (map (fun pd => unproject k (nth 0 (fst pd) NaN) (nth 1 (fst pd) NaN)
                                (nth 0 (snd pd) NaN))
           (combine (rows2 pts) (rows2 depths)));
  points pc := pc
}.

End Pinhole.

(** ** Example data *)

Module Examples.
Import Np KubricSequence Contract.

Definition dec (n : Z) (d : positive) : fval := Fin (Q2Qc (n # d)).

(** An [H x W x 1] depth frame from its rows. *)
Definition depth_frame (w : nat) (rows : list (list fval)) : array3 fval :=
  mk_array3 w 1 (map (map (fun v => [v])) rows).

(** An [(N, 2)] query array from its [(x, y)] pairs. *)
Definition queries (l : list (fval * fval)) : array2 fval :=
  mk_array2 2 (map (fun p => [fst p; snd p]) l).

Definition flat_depth : array3 fval :=
  depth_frame 4 (repeat (repeat (dec 2 1) 4) 4).

Definition black : array3 fval :=
  mk_array3 4 3 (repeat (repeat (repeat zero 3) 4) 4).

(** Three frames of a constant depth 2.0 on a 4 x 4 image; one particle at
    (1.0, 1.0), occluded in frame 1 only. *)
Definition three_frames : Data :=
  mk_data
    [black; black; black]
    [flat_depth; flat_depth; flat_depth]
    (mk_camera (repeat [zero; zero; zero] 3)
               (repeat [one; zero; zero; zero] 3)
               (dec 35 1) (dec 32 1))
    (mk_metadata 4 4 3)
    (mk_array3 3 2 [[[one; one]; [one; one]; [one; one]]])
    (mk_array2 3 [[false; true; false]]).

(** The same three frames, the particle unoccluded throughout and off
    camera, at (9.0, 9.0), in the last frame. *)
Definition stray_frames : Data :=
  mk_data
    (rgb_video three_frames) (depth_video three_frames)
    (camera three_frames) (metadata three_frames)
    (mk_array3 3 2 [[[one; one]; [one; one]; [dec 9 1; dec 9 1]]])
    (mk_array2 3 [[false; false; false]]).



Definition wide_ramp : array3 fval :=
  depth_frame 3 [[dec 3 1; dec 4 1; dec 7 1]; [dec 5 1; dec 6 1; dec 8 1]].

Definition ramp : array3 fval :=
  depth_frame 2 [[dec 3 1; dec 4 1]; [dec 5 1; dec 6 1]].

End Examples.

(** ** Vocabulary of further properties *)

Module Further.
Import Np KubricSequence Contract.

(** [np.round(image_space_positions)]: every entry rounded. *)
Definition round_queries (a : array2 fval) : array2 fval :=
  mk_array2 (cols2 a) (map (map round) (rows2 a)).

(** A single query [(x, y)]. *)
Definition query (x y : fval) : array2 fval :=
  mk_array2 2 [[x; y]].

(** A run that does not end in the exception [e]. *)
Definition never_raises {A} (e : exn) (m : M A) : Prop :=
  forall log, m <> (log, Raise e).

(** Frame [i] of the tracked particles: [target_points[:, i]],
    [occluded[:, i]] and the rows of the unoccluded ones. *)
Definition frame_target_points (self : Data) (i : nat) : array2 fval :=
  mk_array2 (dim2 (target_points self))
            (map (fun p => nth i p []) (planes3 (target_points self))).

Definition frame_is_occluded (self : Data) (i : nat) : list bool :=
  column false (occluded self) i.

Definition frame_queries (self : Data) (i : nat) : array2 fval :=
  mk_array2 (dim2 (target_points self))
            (select (rows2 (frame_target_points self i))
                    (map negb (frame_is_occluded self i))).

(** What the resolver in mode "nearest" returns for well-shaped arguments:
    per query, the interpolator's value at the rounded [(y, x)]. *)
Definition nearest_depths (depth : array3 fval) (queries : array2 fval)
  : array2 fval :=
  mk_array2 1
    (map (fun row => [Scipy.evaluate_point (grid_interpolator depth)
                        (round (nth 1 row NaN), round (nth 0 row NaN))])
         (rows2 queries)).



Section Tail.
Context `{DS : Datastructures}.

(** The statements of [__getitem__] after its two integrity checks, as a
    function of what the statements before them bound. *)
Definition assemble (self : Data) (rgb depth : array3 fval)
    (position quaternion : list fval) (target_points : array2 fval)
    (is_occluded : list bool)
    (unoccluded_target_points unoccluded_target_depths : array2 fval)
  : M FrameSample :=
  pose <- build_pose quaternion position ;;
  dense_intrinsics <- intrinsics self ;;
  emit PointCloud_built ;;;
  let pointcloud := from_field_of_view_depth_image (channel0 depth) dense_intrinsics in
  sparse_intrinsics <- intrinsics self ;;
  emit ParticlePoints_built ;;;
  let unoccluded_target_points_3d :=
    from_field_of_view_points_and_depth
      unoccluded_target_points unoccluded_target_depths
      (List.length (planes3 depth), dim1 depth) sparse_intrinsics in
  let target_points_3d := zeros (List.length (rows2 target_points)) 3 in
  target_points_3d <-
    mask_assign target_points_3d (map negb is_occluded)
                (points unoccluded_target_points_3d) ;;
  emit ParticleFrame_built ;;;
  let particle_frame := mk_ParticleFrame target_points_3d is_occluded in
  ret (mk_sample DS pose pointcloud particle_frame rgb).

End Tail.

End Further.

(** ** [class KubricSequenceLoader] and the loading of a bundle

    The file system is seen through what the code asks of it: the names a
    directory lists, in the order the system yields them, and the bundle a
    path unpickles to when the file exists.  Names are compared as
    [sorted] compares the paths of one directory, character by character;
    a file that exists but does not unpickle is outside the model. *)

Module NameOrder <: TotalLeBool.
Definition t := string.
Definition leb := String.leb.
Definition leb_total : forall a b, leb a b = true \/ leb b a = true :=
  String.leb_total.
End NameOrder.

Module NameSort := Sort NameOrder.

Module Loader.
Import KubricSequence.

(** The two assertion messages and the subscript error of the loader. *)
Inductive load_error : Type :=
| root_dir_does_not_contain_any_pkl_files
    (* "root_dir {root_dir} does not contain any .pkl files" *)
| pkl_file_does_not_exist (pkl_file : string)
    (* "pkl_file {pkl_file} does not exist" *)
| loader_IndexError.

(** [name] ends with [suffix]. *)
Definition ends_with (suffix name : string) : bool :=
  let n := String.length name in
  let m := String.length suffix in
  Nat.leb m n && String.eqb (substring (n - m) m name) suffix.

(** The order [sorted] arranges names in. *)
Definition name_le (a b : string) : Prop := String.leb a b = true.

(** [root_dir.glob("*.pkl")]: the listed names that match the pattern. *)
Definition glob_pkl (entries : list string) : list string :=
  filter (ends_with ".pkl") entries.

(** Built-in [sorted]: a merge sort. *)
Definition sorted (names : list string) : list string :=
  NameSort.sort names.

Record KubricSequenceLoader : Type := mk_loader {
  files : list string
}.

(** [KubricSequenceLoader.__init__] on a directory listing [entries]. *)
Definition __init__ (entries : list string) : load_error + KubricSequenceLoader :=
  let files := sorted (glob_pkl entries) in
  if Nat.ltb 0 (List.length files)
  then inr (mk_loader files)
  else inl root_dir_does_not_contain_any_pkl_files.

Definition __len__ (self : KubricSequenceLoader) : Z :=
  Z.of_nat (List.length (files self)).

(** [KubricSequence._load_pkl] against the files that exist, [store]. *)
Definition _load_pkl (store : string -> option Data) (pkl_file : string)
  : load_error + Data :=
  match store pkl_file with
  | Some data => inr data
  | None => inl (pkl_file_does_not_exist pkl_file)
  end.

(** [KubricSequence.__init__]: the object is its [data]. *)
Definition KubricSequence (store : string -> option Data) (data_file : string)
  : load_error + Data :=
  _load_pkl store data_file.

(** [KubricSequenceLoader.__getitem__] *)
Definition __getitem__ (store : string -> option Data)
    (self : KubricSequenceLoader) (idx : Z) : load_error + Data :=
  match normalize_index (List.length (files self)) idx with
  | (_, Ok i) =>
      match nth_error (files self) i with
      | Some file => KubricSequence store file
      | None => inl loader_IndexError
      end
  | (_, Raise _) => inl loader_IndexError
  end.

End Loader.

Module LoaderExamples.

Definition listing : list string :=
  ["seq_b.pkl"; "notes.txt"; "seq_a.pkl"; "seq_c.pkl.bak"]%string.

Definition store (name : string) : option KubricSequence.Data :=
  if String.eqb name "seq_a.pkl" then Some Examples.three_frames
  else if String.eqb name "seq_b.pkl" then Some Examples.stray_frames
  else None.

End LoaderExamples.

(** * Properties *)

Import Np KubricSequence Contract.

(** ** The run monad *)

Section Monad.
Context {A B : Type}.

Lemma bind_ret (a : A) (k : A -> M B) : bind (ret a) k = k a.
Proof. unfold bind, ret. destruct (k a). reflexivity. Qed.

Lemma bind_raise (e : exn) (k : A -> M B) : bind (raise e) k = raise e.
Proof. reflexivity. Qed.

Lemma bind_Ok (m : M A) (k : A -> M B) log b :
  bind m k = (log, Ok b) ->
  exists l1 a l2, m = (l1, Ok a) /\ k a = (l2, Ok b) /\ log = l1 ++ l2.
Proof.
  destruct m as [l1 [a | e]]; simpl; [| discriminate].
  destruct (k a) as [l2 r] eqn:Hk. intros H. inversion H; subst.
  exists l1, a, l2. auto.
Qed.

Lemma bind_Raise (m : M A) (k : A -> M B) log e :
  bind m k = (log, Raise e) ->
  m = (log, Raise e) \/
  exists l1 a l2, m = (l1, Ok a) /\ k a = (l2, Raise e) /\ log = l1 ++ l2.
Proof.
  destruct m as [l1 [a | e']]; simpl.
  - destruct (k a) as [l2 r] eqn:Hk. intros H. inversion H; subst.
    right. exists l1, a, l2. auto.
  - intros H. inversion H; subst. now left.
Qed.

End Monad.

(** ** Rationals of integers *)

Lemma this_Qc_of_Z z : (this (Qc_of_Z z) == inject_Z z)%Q.
Proof. change (this (Qc_of_Z z)) with (Qred (inject_Z z)). apply Qred_correct. Qed.

Lemma Qc_of_Z_add a b : Qc_of_Z (a + b) = (Qc_of_Z a + Qc_of_Z b)%Qc.
Proof.
  apply Qc_is_canon. unfold Qcplus.
  change (this (Q2Qc ?x)) with (Qred x).
  rewrite Qred_correct, !this_Qc_of_Z, inject_Z_plus. reflexivity.
Qed.



Lemma Qc_of_Z_compare a b : (Qc_of_Z a ?= Qc_of_Z b)%Qc = (a ?= b).
Proof.
  unfold Qccompare. rewrite !this_Qc_of_Z.
  unfold Qcompare, inject_Z. simpl. now rewrite !Z.mul_1_r.
Qed.

Lemma Qc_sign_of_Z z : Qc_sign (Qc_of_Z z) = (z ?= 0).
Proof. unfold Qc_sign. change 0%Qc with (Qc_of_Z 0). apply Qc_of_Z_compare. Qed.



(** ** Sequence length *)

(** C6: for a sequence whose metadata records at least one frame, the
    length of the sequence, [len(sequence)], is exactly [num_frames - 1]. *)
Theorem sequence_length (self : Data) :
  1 <= num_frames (metadata self) ->
  len (__len__ self) = ret (num_frames (metadata self) - 1).
Proof.
  intros H. unfold len, __len__.
  destruct (num_frames (metadata self) - 1 <? 0) eqn:E; [| reflexivity].
  apply Z.ltb_lt in E. lia.
Qed.

Lemma sequence_length_witness :
  1 <= num_frames (metadata Examples.three_frames) /\
  len (__len__ Examples.three_frames) = ret 2.
Proof.
  split; [ vm_compute; discriminate | ].
  apply (sequence_length Examples.three_frames). vm_compute. discriminate.
Defined.

(** ** Intrinsics *)





(** ** Shape validation of the depth resolver *)

(** C8: a query array without exactly two columns, or a depth map without
    exactly one channel, makes the depth resolver fail with the assertion
    message that prints the offending shape, before an interpolator is
    built or evaluated. *)
Theorem shape_validation (image_space_positions : array2 fval)
    (depth_entries : array3 fval) (interpolation_type : string) :
  cols2 image_space_positions <> 2%nat \/ dim2 depth_entries <> 1%nat ->
  _image_space_to_depth image_space_positions depth_entries interpolation_type
  = ([], Raise (AssertionError
                  (if Nat.eqb (cols2 image_space_positions) 2
                   then depth_image_shape (shape3 depth_entries)
                   else image_space_positions_shape (shape2 image_space_positions)))).
Proof.
  intros H. unfold _image_space_to_depth, assert.
  destruct (Nat.eqb (cols2 image_space_positions) 2) eqn:E2; [| reflexivity].
  rewrite bind_ret.
  destruct (Nat.eqb (dim2 depth_entries) 1) eqn:E1; [| reflexivity].
  apply Nat.eqb_eq in E1, E2. destruct H; contradiction.
Qed.

Lemma shape_validation_witness :
  _image_space_to_depth (mk_array2 3 [[one; one; one]]) Examples.ramp "nearest"
  = ([], Raise (AssertionError (image_space_positions_shape (1%nat, 3%nat)))).
Proof.
  apply (shape_validation (mk_array2 3 [[one; one; one]]) Examples.ramp "nearest").
  left. simpl. discriminate.
Defined.

(** ** Indexing a sequence *)

Section Indexing.
Context `{DS : Datastructures}.



End Indexing.



(** ** The integer grid [np.arange(n)] *)

Lemma Qc_of_Z_0 : Qc_of_Z 0 = 0%Qc.
Proof. reflexivity. Qed.

Lemma Qc_of_Z_1 : Qc_of_Z 1 = 1%Qc.
Proof. reflexivity. Qed.

Lemma Qc_of_Z_opp a : Qc_of_Z (- a) = (- Qc_of_Z a)%Qc.
Proof.
  apply Qc_is_canon. unfold Qcopp.
  change (this (Q2Qc ?x)) with (Qred x).
  rewrite Qred_correct, !this_Qc_of_Z, inject_Z_opp. reflexivity.
Qed.

Lemma Qc_of_Z_sub a b : Qc_of_Z (a - b) = (Qc_of_Z a - Qc_of_Z b)%Qc.
Proof.
  unfold Z.sub, Qcminus. now rewrite Qc_of_Z_add, Qc_of_Z_opp.
Qed.

Lemma fsub_of_int a b : fsub (of_int a) (of_int b) = of_int (a - b).
Proof. unfold fsub, of_int. cbn. now rewrite Qc_of_Z_sub. Qed.

Lemma flt_of_int a b : flt (of_int a) (of_int b) = (a <? b).
Proof.
  unfold flt, of_int. rewrite Qc_of_Z_compare. unfold Z.ltb.
  now destruct (a ?= b).
Qed.

Lemma length_arange n : List.length (arange n) = n.
Proof. unfold arange. now rewrite length_map, length_seq. Qed.

Lemma nth_arange n k :
  (k < n)%nat -> nth k (arange n) NaN = of_int (Z.of_nat k).
Proof.
  intros H. unfold arange.
  rewrite (nth_indep _ NaN (of_int (Z.of_nat 0))) by now rewrite length_map, length_seq.
  rewrite (map_nth (fun k => of_int (Z.of_nat k))). now rewrite seq_nth.
Qed.

Lemma get_arange n i :
  0 <= i < Z.of_nat n -> get NaN (arange n) i = of_int i.
Proof.
  intros H. unfold get. destruct (i <? 0) eqn:E; [apply Z.ltb_lt in E; lia |].
  rewrite nth_arange by lia. f_equal. lia.
Qed.

Lemma get_arange_last n :
  (1 <= n)%nat -> get NaN (arange n) (-1) = of_int (Z.of_nat n - 1).
Proof.
  intros H. unfold get. cbn [Z.ltb Z.compare]. rewrite length_arange.
  rewrite nth_arange by lia. f_equal. lia.
Qed.

Lemma arange_S n : arange (S n) = arange n ++ [of_int (Z.of_nat n)].
Proof. unfold arange. now rewrite seq_S, map_app. Qed.

Lemma searchsorted_arange n k :
  0 <= k -> searchsorted (arange n) (of_int k) = Z.min (Z.of_nat n) k.
Proof.
  intros Hk. unfold searchsorted. induction n as [| n IH].
  - cbn. lia.
  - rewrite arange_S, filter_app, length_app, Nat2Z.inj_add, IH.
    cbn [filter]. unfold sort_lt at 1. rewrite flt_of_int. cbn [of_int isnan andb orb].
    rewrite orb_false_r.
    destruct (Z.of_nat n <? k) eqn:E.
    + apply Z.ltb_lt in E. cbn [List.length]. lia.
    + apply Z.ltb_ge in E. cbn [List.length]. lia.
Qed.

(** On the integer grid, a grid point has its cell's lower edge just below
    it (the first point: at it). *)
Lemma find_index_arange n k :
  (2 <= n)%nat -> 0 <= k <= Z.of_nat n - 1 ->
  Scipy.find_index (arange n) (of_int k) = Z.max 0 (k - 1).
Proof.
  intros Hn Hk. unfold Scipy.find_index.
  rewrite searchsorted_arange, length_arange by lia.
  destruct (Z.min (Z.of_nat n) k - 1 <? 0) eqn:E1.
  - apply Z.ltb_lt in E1.
    destruct (0 >? Z.of_nat n - 2) eqn:E2; [apply Z.gtb_lt in E2; lia | lia].
  - apply Z.ltb_ge in E1.
    destruct (Z.min (Z.of_nat n) k - 1 >? Z.of_nat n - 2) eqn:E2.
    + apply Z.gtb_lt in E2. lia.
    + lia.
Qed.

Lemma fdiv_one q : fdiv (Fin q) (of_int 1) = Fin q.
Proof.
  unfold fdiv, of_int. rewrite Qc_sign_of_Z. cbn [Z.compare].
  f_equal. rewrite Qc_of_Z_1. field. discriminate.
Qed.

Lemma norm_distance_arange n k i :
  0 <= i -> i + 1 < Z.of_nat n ->
  Scipy.norm_distance (arange n) (of_int k) i = of_int (k - i).
Proof.
  intros Hi Hn. unfold Scipy.norm_distance.
  rewrite !get_arange by lia. rewrite !fsub_of_int.
  replace (i + 1 - i) with 1 by lia. apply fdiv_one.
Qed.

Lemma out_of_bounds_arange n x :
  (1 <= n)%nat ->
  Scipy.out_of_bounds (arange n) x
  = flt x (of_int 0) || fgt x (of_int (Z.of_nat n - 1)).
Proof.
  intros Hn. unfold Scipy.out_of_bounds.
  rewrite get_arange by lia. now rewrite get_arange_last.
Qed.

Lemma out_of_bounds_arange_int n k :
  (1 <= n)%nat ->
  Scipy.out_of_bounds (arange n) (of_int k)
  = negb ((0 <=? k) && (k <=? Z.of_nat n - 1)).
Proof.
  intros Hn. rewrite out_of_bounds_arange by exact Hn.
  unfold fgt. rewrite !flt_of_int.
  destruct (k <? 0) eqn:E1, (Z.of_nat n - 1 <? k) eqn:E2,
           (0 <=? k) eqn:E3, (k <=? Z.of_nat n - 1) eqn:E4; try reflexivity;
    rewrite ?Z.ltb_lt, ?Z.ltb_ge, ?Z.leb_le, ?Z.leb_gt in *; lia.
Qed.

(** ** Linear interpolation at a grid point *)

Lemma get_nonneg {A} (d : A) l i : 0 <= i -> get d l i = nth (Z.to_nat i) l d.
Proof.
  intros H. unfold get. now destruct (i <? 0) eqn:E; [apply Z.ltb_lt in E; lia |].
Qed.

Lemma nth_map_default {A B} (f : A -> B) l n d d' :
  f d = d' -> nth n (map f l) d' = f (nth n l d).
Proof. intros <-. apply map_nth. Qed.

Lemma get2_channel0 depth r c :
  0 <= r -> 0 <= c -> get2 (rows2 (channel0 depth)) r c = pixel depth r c.
Proof.
  intros Hr Hc. unfold get2, pixel, channel0. cbn [rows2].
  rewrite !get_nonneg by assumption.
  rewrite (nth_map_default (map (fun px : list fval => nth 0 px NaN)) _ _ [] [])
    by reflexivity.
  now rewrite (nth_map_default (fun px : list fval => nth 0 px NaN) _ _ [] NaN).
Qed.

Lemma pixel_finite depth r c :
  wf3 depth = true -> all_finite3 depth = true -> dim2 depth = 1%nat ->
  0 <= r < Z.of_nat (List.length (planes3 depth)) ->
  0 <= c < Z.of_nat (dim1 depth) ->
  exists q, pixel depth r c = Fin q.
Proof.
  intros Hwf Hfin Hc1 Hr Hc. unfold pixel, wf3, all_finite3 in *.
  rewrite forallb_forall in Hwf, Hfin.
  assert (Hin : In (nth (Z.to_nat r) (planes3 depth) []) (planes3 depth))
    by (apply nth_In; lia).
  specialize (Hwf _ Hin). specialize (Hfin _ Hin).
  apply andb_prop in Hwf. destruct Hwf as [Hlen Hwf].
  apply Nat.eqb_eq in Hlen.
  rewrite forallb_forall in Hwf, Hfin.
  set (row := nth (Z.to_nat r) (planes3 depth) []) in *.
  assert (Hin' : In (nth (Z.to_nat c) row []) row) by (apply nth_In; lia).
  specialize (Hwf _ Hin'). specialize (Hfin _ Hin').
  apply Nat.eqb_eq in Hwf. rewrite Hc1 in Hwf.
  destruct (nth (Z.to_nat c) row []) as [| v [| ? ?]]; try discriminate.
  cbn in Hfin. rewrite andb_true_r in Hfin. cbn.
  destruct v; try discriminate. now exists q.
Qed.

(** With normalised distances 0 or 1 and finite corner values, the weighted
    sum is the value at the corner the distances point to. *)
Lemma evaluate_linear_node vals i0 i1 d0 d1 :
  (d0 = 0 \/ d0 = 1) -> (d1 = 0 \/ d1 = 1) ->
  (forall a b, (a = 0 \/ a = 1) -> (b = 0 \/ b = 1) ->
               exists q, get2 vals (i0 + a) (i1 + b) = Fin q) ->
  Scipy.evaluate_linear vals i0 i1 (of_int d0) (of_int d1)
  = get2 vals (i0 + d0) (i1 + d1).
Proof.
  intros H0 H1 Hfin.
  destruct (Hfin 0 0) as [q00 E00]; auto.
  destruct (Hfin 0 1) as [q01 E01]; auto.
  destruct (Hfin 1 0) as [q10 E10]; auto.
  destruct (Hfin 1 1) as [q11 E11]; auto.
  rewrite !Z.add_0_r in *.
  unfold Scipy.evaluate_linear, Scipy.edges, Scipy.edge_weight.
  cbn [fold_left fst snd]. rewrite E00, E01, E10, E11.
  unfold fsub, one, zero, of_int. cbn [fneg fadd fmul].
  destruct H0 as [-> | ->], H1 as [-> | ->];
    rewrite ?Z.add_0_r, ?E00, ?E01, ?E10, ?E11, ?Qc_of_Z_0, ?Qc_of_Z_1;
    f_equal; ring.
Qed.

Lemma evaluate_point_node depth r c :
  wf3 depth = true -> all_finite3 depth = true -> dim2 depth = 1%nat ->
  (2 <= List.length (planes3 depth))%nat -> (2 <= dim1 depth)%nat ->
  0 <= r <= Z.of_nat (List.length (planes3 depth)) - 1 ->
  0 <= c <= Z.of_nat (dim1 depth) - 1 ->
  Scipy.evaluate_point (grid_interpolator depth) (of_int r, of_int c)
  = pixel depth r c.
Proof.
  intros Hwf Hfin Hc1 HH HW Hr Hc.
  unfold Scipy.evaluate_point, Scipy.point_out_of_bounds, grid_interpolator.
  cbn [Scipy.grid0 Scipy.grid1 Scipy.values Scipy.fill_value fst snd].
  rewrite !out_of_bounds_arange_int by lia.
  replace ((0 <=? r) && (r <=? Z.of_nat (List.length (planes3 depth)) - 1)) with true
    by (symmetry; apply andb_true_intro; split; apply Z.leb_le; lia).
  replace ((0 <=? c) && (c <=? Z.of_nat (dim1 depth) - 1)) with true
    by (symmetry; apply andb_true_intro; split; apply Z.leb_le; lia).
  cbn [negb orb].
  rewrite !find_index_arange by lia.
  rewrite !norm_distance_arange by lia.
  rewrite evaluate_linear_node.
  - rewrite get2_channel0 by lia. f_equal; lia.
  - lia.
  - lia.
  - intros a b Ha Hb. rewrite get2_channel0 by lia.
    apply pixel_finite; auto; lia.
Qed.

(** ** One run of the depth resolver *)

Lemma combine_map {A B C} (f : A -> B) (g : A -> C) l :
  combine (map f l) (map g l) = map (fun a => (f a, g a)) l.
Proof. induction l; cbn; congruence. Qed.

Lemma arange_nonempty n : (1 <= n)%nat -> arange n <> [].
Proof.
  destruct n; [lia |]. intros _. unfold arange. cbn. discriminate.
Qed.

Lemma init_ok points vals be :
  List.length (fst points) = List.length (rows2 vals) ->
  List.length (snd points) = cols2 vals ->
  Scipy.init points vals be
  = ([Interpolator_built],
     Ok (Scipy.mk_interpolator (fst points) (snd points) (rows2 vals) be NaN)).
Proof.
  intros H0 H1. unfold Scipy.init. rewrite H0, H1, !Nat.eqb_refl. reflexivity.
Qed.

Lemma call_ok interp q0 q1 :
  Scipy.grid0 interp <> [] -> Scipy.grid1 interp <> [] ->
  Scipy.bounds_error interp = false ->
  Scipy.call interp q0 q1
  = ([Interpolator_evaluated],
     Ok (map (Scipy.evaluate_point interp) (combine q0 q1))).
Proof.
  intros H0 H1 Hb. unfold Scipy.call. rewrite Hb.
  destruct (Scipy.grid0 interp); [contradiction |].
  destruct (Scipy.grid1 interp); [contradiction |]. reflexivity.
Qed.

(** With well-shaped arguments and a depth map of at least one pixel the
    resolver builds the interpolator, evaluates it once, and returns one
    row per query: the interpolator's value at [(y, x)]. *)
Lemma resolver_run positions depth mode :
  cols2 positions = 2%nat -> dim2 depth = 1%nat ->
  (1 <= List.length (planes3 depth))%nat -> (1 <= dim1 depth)%nat ->
  _image_space_to_depth positions depth mode
  = ([Interpolator_built; Interpolator_evaluated],
     Ok (mk_array2 1
           (map (fun row => [Scipy.evaluate_point (grid_interpolator depth)
                               (queried mode (nth 1 row NaN),
                                queried mode (nth 0 row NaN))])
                (rows2 positions)))).
Proof.
  intros Hc2 Hc1 HH HW. unfold _image_space_to_depth, assert.
  rewrite Hc2, Hc1. cbn [Nat.eqb]. rewrite !bind_ret.
  rewrite init_ok
    by (cbn [fst snd shape2 channel0 rows2 cols2];
        now rewrite length_arange, ?length_map).
  cbn [fst snd shape2 channel0 rows2 cols2]. rewrite length_map.
  cbn [bind]. rewrite call_ok by (try reflexivity; now apply arange_nonempty).
  cbn [bind ret app]. do 3 f_equal. fold (channel0 depth).
  rewrite map_map. unfold column, queried, grid_interpolator. cbn [channel0 rows2].
  destruct (String.eqb mode "nearest").
  - rewrite !map_map, combine_map, map_map. reflexivity.
  - rewrite combine_map, map_map. reflexivity.
Qed.

(** ** Rounding *)

Lemma Qfloor_unique (q : Q) (k : Z) :
  (inject_Z k <= q)%Q -> (q < inject_Z (k + 1))%Q -> Qfloor q = k.
Proof.
  intros Hlo Hhi.
  assert (H1 : k <= Qfloor q).
  { rewrite <- (Qfloor_Z k). now apply Qfloor_resp_le. }
  assert (H2 : Qfloor q < k + 1).
  { rewrite Zlt_Qlt. eapply Qle_lt_trans; [apply Qfloor_le | exact Hhi]. }
  lia.
Qed.

Lemma Qfloor_of_Z k : Qfloor (Qc_of_Z k) = k.
Proof.
  apply Qfloor_unique; rewrite this_Qc_of_Z.
  - apply Qle_refl.
  - rewrite <- Zlt_Qlt. lia.
Qed.

Lemma round_half_even_of_Z k : round_half_even (Qc_of_Z k) = k.
Proof.
  unfold round_half_even. rewrite Qfloor_of_Z.
  replace (Qc_of_Z k - Qc_of_Z k)%Qc with 0%Qc by ring.
  reflexivity.
Qed.

Lemma Qfloor_half k : Qfloor (Qc_of_Z k + half)%Qc = k.
Proof.
  assert (Hlo : (Qc_of_Z k <= Qc_of_Z k + half)%Qc).
  { rewrite <- (Qcplus_0_r (Qc_of_Z k)) at 1.
    apply Qcplus_le_compat; [apply Qcle_refl | discriminate]. }
  assert (Hhi : (Qc_of_Z k + half < Qc_of_Z (k + 1))%Qc).
  { rewrite Qc_of_Z_add, Qc_of_Z_1.
    apply Qclt_minus_iff.
    replace (Qc_of_Z k + 1 + - (Qc_of_Z k + half))%Qc with half
      by (unfold half; ring_simplify; apply Qc_is_canon; reflexivity).
    reflexivity. }
  apply Qfloor_unique.
  - rewrite <- this_Qc_of_Z. exact Hlo.
  - rewrite <- this_Qc_of_Z. exact Hhi.
Qed.

Lemma round_half_even_half k :
  round_half_even (Qc_of_Z k + half)%Qc = if Z.even k then k else k + 1.
Proof.
  unfold round_half_even. rewrite Qfloor_half.
  replace (Qc_of_Z k + half - Qc_of_Z k)%Qc with half by ring.
  reflexivity.
Qed.

Lemma round_of_int k : round (of_int k) = of_int k.
Proof. unfold round, of_int. now rewrite round_half_even_of_Z. Qed.

(** ** The depth resolver *)

Lemma in_grid_bounds h w x y :
  in_grid h w x y = true ->
  0 <= x <= Z.of_nat w - 1 /\ 0 <= y <= Z.of_nat h - 1.
Proof.
  unfold in_grid. rewrite !andb_true_iff, !Z.leb_le. lia.
Qed.

Lemma point_out_of_bounds_int depth x y :
  (1 <= List.length (planes3 depth))%nat -> (1 <= dim1 depth)%nat ->
  Scipy.point_out_of_bounds (grid_interpolator depth) (of_int y, of_int x)
  = negb (in_grid (List.length (planes3 depth)) (dim1 depth) x y).
Proof.
  intros HH HW. unfold Scipy.point_out_of_bounds, grid_interpolator, in_grid.
  cbn [Scipy.grid0 Scipy.grid1 fst snd].
  rewrite !out_of_bounds_arange_int by assumption.
  destruct (0 <=? x), (x <=? Z.of_nat (dim1 depth) - 1), (0 <=? y),
           (y <=? Z.of_nat (List.length (planes3 depth)) - 1); reflexivity.
Qed.

(** The value the resolver returns for integer query coordinates on a
    finite depth map: the stored depth inside the grid, the fill value
    outside. *)
Lemma evaluate_point_int depth x y :
  wf3 depth = true -> all_finite3 depth = true -> dim2 depth = 1%nat ->
  (2 <= List.length (planes3 depth))%nat -> (2 <= dim1 depth)%nat ->
  Scipy.evaluate_point (grid_interpolator depth) (of_int y, of_int x)
  = if in_grid (List.length (planes3 depth)) (dim1 depth) x y
    then pixel depth y x else NaN.
Proof.
  intros Hwf Hfin Hc1 HH HW.
  destruct (in_grid _ _ x y) eqn:E.
  - apply in_grid_bounds in E. apply evaluate_point_node; auto; lia.
  - unfold Scipy.evaluate_point.
    rewrite point_out_of_bounds_int, E by lia. reflexivity.
Qed.







Lemma point_out_of_bounds_outside depth x y :
  (1 <= List.length (planes3 depth))%nat -> (1 <= dim1 depth)%nat ->
  Scipy.point_out_of_bounds (grid_interpolator depth) (y, x)
  = outside (List.length (planes3 depth)) (dim1 depth) x y.
Proof.
  intros HH HW. unfold Scipy.point_out_of_bounds, grid_interpolator, outside.
  cbn [Scipy.grid0 Scipy.grid1 fst snd].
  rewrite !out_of_bounds_arange by assumption.
  destruct (flt x (of_int 0)), (fgt x (of_int (Z.of_nat (dim1 depth) - 1))),
           (flt y (of_int 0)),
           (fgt y (of_int (Z.of_nat (List.length (planes3 depth)) - 1)));
    reflexivity.
Qed.

(** C4, as the code has it: with well-shaped arguments and a depth map of
    at least one pixel the resolver does not raise and returns one row per
    query; the row of a query whose coordinates as queried (rounded first
    in the mode "nearest") lie outside the pixel grid is not-a-number. *)
Theorem out_of_grid_is_nan (positions : array2 fval) (depth : array3 fval)
    (mode : string) :
  cols2 positions = 2%nat -> dim2 depth = 1%nat ->
  (1 <= List.length (planes3 depth))%nat -> (1 <= dim1 depth)%nat ->
  exists depths,
    _image_space_to_depth positions depth mode
    = ([Interpolator_built; Interpolator_evaluated], Ok (mk_array2 1 depths))
    /\ List.length depths = List.length (rows2 positions)
    /\ forall j x y,
         nth_error (rows2 positions) j = Some [x; y] ->
         outside (List.length (planes3 depth)) (dim1 depth)
                 (queried mode x) (queried mode y) = true ->
         nth_error depths j = Some [NaN].
Proof.
  intros Hc2 Hc1 HH HW. eexists. split; [| split].
  - apply resolver_run; assumption.
  - apply length_map.
  - intros j x y Hj Hout.
    rewrite (map_nth_error _ _ _ Hj). cbn [nth].
    unfold Scipy.evaluate_point.
    rewrite point_out_of_bounds_outside, Hout by assumption. reflexivity.
Qed.

Lemma out_of_grid_is_nan_witness :
  _image_space_to_depth (Examples.queries [(Examples.dec 5 2, zero)])
                        Examples.ramp "nearest"
  = ([Interpolator_built; Interpolator_evaluated], Ok (mk_array2 1 [[NaN]])).
Proof.
  destruct (out_of_grid_is_nan (Examples.queries [(Examples.dec 5 2, zero)])
                               Examples.ramp "nearest")
    as (depths & E & Hlen & Hnan);
    [reflexivity | reflexivity | cbn; lia | cbn; lia |].
  rewrite E.
  specialize (Hnan 0%nat (Examples.dec 5 2) zero eq_refl eq_refl).
  destruct depths as [| d [| d' depths]]; try discriminate.
  cbn in Hnan. inversion Hnan. reflexivity.
Defined.

(** C4, as stated, fails: the coordinate -0.3 lies outside [0, W - 1], yet
    in the default mode it is rounded to 0 first and the query resolves to
    the depth stored at pixel (0, 0). *)
Lemma near_border_query_gets_depth :
  outside 2 2 (Examples.dec (-3) 10) zero = true /\
  pixel Examples.ramp 0 0 = Examples.dec 3 1 /\
  _image_space_to_depth (Examples.queries [(Examples.dec (-3) 10, zero)])
                        Examples.ramp "nearest"
  = ([Interpolator_built; Interpolator_evaluated],
     Ok (mk_array2 1 [[Examples.dec 3 1]])).
Proof.
  repeat split; vm_compute; reflexivity.
Qed.

(** ** Halfway coordinates *)

Lemma round_coordinate c :
  round (coordinate_value c) = of_int (nearest_even_cell c).
Proof.
  destruct c as [k | k]; cbn [coordinate_value nearest_even_cell].
  - apply round_of_int.
  - unfold round. now rewrite round_half_even_half.
Qed.

(** C10: in the mode "nearest" a coordinate exactly halfway between two
    cells resolves to the even one of the two, a coordinate on a pixel
    centre to that pixel: on a finite depth map of at least 2 x 2 pixels
    the resolver returns the depth stored at those cells. *)
Theorem halfway_resolves_to_even_cell (depth : array3 fval)
    (pts : list (coordinate * coordinate)) :
  wf3 depth = true -> dim2 depth = 1%nat -> all_finite3 depth = true ->
  (2 <= List.length (planes3 depth))%nat -> (2 <= dim1 depth)%nat ->
  forallb (fun p => in_grid (List.length (planes3 depth)) (dim1 depth)
                            (nearest_even_cell (fst p)) (nearest_even_cell (snd p)))
          pts = true ->
  _image_space_to_depth
    (mk_array2 2 (map (fun p => [coordinate_value (fst p); coordinate_value (snd p)]) pts))
    depth "nearest"
  = ([Interpolator_built; Interpolator_evaluated],
     Ok (mk_array2 1
           (map (fun p => [pixel depth (nearest_even_cell (snd p))
                                       (nearest_even_cell (fst p))]) pts))).
Proof.
  intros Hwf Hc1 Hfin HH HW Hin.
  rewrite resolver_run by (auto; lia).
  do 3 f_equal. cbn [rows2]. rewrite map_map.
  apply map_ext_in. intros [x y] Hp. cbn [nth fst snd].
  change (queried "nearest") with round. rewrite !round_coordinate.
  rewrite evaluate_point_int by assumption.
  rewrite forallb_forall in Hin. specialize (Hin _ Hp). cbn [fst snd] in Hin.
  now rewrite Hin.
Qed.

Lemma halfway_resolves_to_even_cell_witness :
  _image_space_to_depth
    (Examples.queries [(Examples.dec 1 2, zero); (Examples.dec 3 2, zero)])
    Examples.wide_ramp "nearest"
  = ([Interpolator_built; Interpolator_evaluated],
     Ok (mk_array2 1 [[pixel Examples.wide_ramp 0 0]; [pixel Examples.wide_ramp 0 2]])).
Proof.
  assert (E : Examples.queries [(Examples.dec 1 2, zero); (Examples.dec 3 2, zero)]
              = mk_array2 2 (map (fun p => [coordinate_value (fst p);
                                            coordinate_value (snd p)])
                                 [(halfway 0, at_pixel 0); (halfway 1, at_pixel 0)]))
    by reflexivity.
  rewrite E.
  apply (halfway_resolves_to_even_cell Examples.wide_ramp
           [(halfway 0, at_pixel 0); (halfway 1, at_pixel 0)]);
    first [reflexivity | cbn; lia].
Defined.

(** ** Masked assignment *)

Lemma scatter_unmasked {A} (l : list A) mask vals i :
  nth_error mask i = Some false ->
  nth_error (scatter l mask vals) i = nth_error l i.
Proof.
  revert mask vals i. induction l as [| x l IH]; intros mask vals i Hi.
  - destruct mask as [| [] ?]; reflexivity.
  - destruct mask as [| b mask]; [destruct i; discriminate |].
    destruct i as [| i].
    + cbn in Hi. inversion Hi; subst. reflexivity.
    + cbn in Hi. destruct b; cbn.
      * destruct vals; cbn; now apply IH.
      * now apply IH.
Qed.

Lemma nth_error_repeat {A} (x : A) n i :
  (i < n)%nat -> nth_error (repeat x n) i = Some x.
Proof.
  revert i. induction n; intros i H; [lia |].
  destruct i; cbn; [reflexivity | apply IHn; lia].
Qed.

Lemma normalize_index_cases n idx :
  normalize_index n idx = raise IndexError \/
  exists i, (i < n)%nat /\ normalize_index n idx = ret i.
Proof.
  unfold normalize_index.
  destruct ((0 <=? idx) && (idx <? Z.of_nat n)) eqn:E1.
  - right. apply andb_prop in E1. destruct E1 as [H1 H2].
    apply Z.leb_le in H1. apply Z.ltb_lt in H2.
    exists (Z.to_nat idx). split; [lia | reflexivity].
  - destruct ((- Z.of_nat n <=? idx) && (idx <? 0)) eqn:E2.
    + right. apply andb_prop in E2. destruct E2 as [H1 H2].
      apply Z.leb_le in H1. apply Z.ltb_lt in H2.
      exists (Z.to_nat (Z.of_nat n + idx)). split; [lia | reflexivity].
    + now left.
Qed.

Lemma take_column_Ok a idx log flags :
  take_column a idx = (log, Ok flags) -> take_column a idx = ret flags.
Proof.
  unfold take_column.
  destruct (normalize_index_cases (cols2 a) idx) as [-> | (i & _ & ->)].
  - discriminate.
  - rewrite bind_ret. intros H. inversion H. reflexivity.
Qed.

Ltac bind_ok H :=
  let l1 := fresh "log" in
  let a := fresh "a" in
  let l2 := fresh "log" in
  let E := fresh "E" in
  let L := fresh "L" in
  apply bind_Ok in H; destruct H as (l1 & a & l2 & E & H & L).

(** ** The frame assembler *)

Section Assembler.
Context `{DS : Datastructures}.

(** C1: in every frame sample [__getitem__] returns, a particle whose
    occlusion flag at that frame is true has the zero vector as its 3-D
    position and keeps a true occlusion flag. *)
Theorem occluded_particles_are_zero (self : Data) (idx : Z) log
    (sample : FrameSample) :
  __getitem__ self idx = (log, Ok sample) ->
  exists is_occluded,
    take_column (occluded self) idx = ret is_occluded /\
    forall i, nth_error is_occluded i = Some true ->
      nth_error (rows2 (particle_points (particles sample))) i
      = Some [zero; zero; zero]
      /\ nth_error (particle_is_occluded (particles sample)) i = Some true.
Proof.
  intros H. unfold __getitem__ in H.
  do 16 bind_ok H.
  inversion H; subst sample; clear H.
  match goal with
  | Ecol : take_column _ _ = (_, Ok ?flags),
    Emask : mask_index ?tp (map negb ?flags) = _,
    Eassign : mask_assign _ (map negb ?flags) _ = (_, Ok ?tp3d) |- _ =>
      rename flags into is_occluded; rename tp into target_points;
      rename tp3d into target_points_3d;
      rename Ecol into Hcol; rename Emask into Hmask; rename Eassign into Hassign
  end.
  exists is_occluded. split; [eapply take_column_Ok; eassumption |].
  intros i Hi. cbn [particles particle_points particle_is_occluded].
  split; [| exact Hi].
  unfold mask_index in Hmask. rewrite length_map in Hmask.
  destruct (Nat.eqb (List.length is_occluded) (List.length (rows2 target_points)))
    eqn:Elen; [| discriminate].
  apply Nat.eqb_eq in Elen.
  unfold mask_assign, zeros in Hassign. cbn [rows2 cols2] in Hassign.
  rewrite length_map, repeat_length, Elen, Nat.eqb_refl in Hassign.
  bind_ok Hassign. inversion Hassign; subst target_points_3d. cbn [rows2].
  rewrite scatter_unmasked by (rewrite nth_error_map, Hi; reflexivity).
  apply nth_error_repeat. rewrite <- Elen.
  apply nth_error_Some. congruence.
Qed.

End Assembler.

Lemma occluded_particles_are_zero_witness :
  exists log sample,
    __getitem__ (DS := Pinhole.pinhole) Examples.three_frames 1 = (log, Ok sample)
    /\ nth_error (rows2 (particle_points (particles sample))) 0
       = Some [zero; zero; zero]
    /\ nth_error (particle_is_occluded (particles sample)) 0 = Some true.
Proof.
  destruct (__getitem__ (DS := Pinhole.pinhole) Examples.three_frames 1)
    as [log [sample | e]] eqn:E; [| vm_compute in E; discriminate].
  exists log, sample. split; [reflexivity |].
  destruct (occluded_particles_are_zero Examples.three_frames 1 log sample E)
    as (flags & Hflags & Hzero).
  vm_compute in Hflags. inversion Hflags; subst flags.
  apply (Hzero 0%nat). reflexivity.
Defined.

(** ** Runs that cannot end in an assertion error *)









(** ** What a valid sequence provides *)


Lemma valid_frames self :
  valid self = true ->
  let n := List.length (rgb_video self) in
  List.length (depth_video self) = n
  /\ List.length (positions (camera self)) = n
  /\ List.length (quaternions (camera self)) = n
  /\ dim1 (target_points self) = n
  /\ cols2 (occluded self) = n
  /\ dim2 (target_points self) = 2%nat
  /\ List.length (rows2 (occluded self)) = List.length (planes3 (target_points self))
  /\ (forall d, In d (depth_video self) ->
        dim2 d = 1%nat /\ (1 <= List.length (planes3 d))%nat /\ (1 <= dim1 d)%nat)
  /\ (forall p, In p (positions (camera self)) -> List.length p = 3%nat)
  /\ (forall q, In q (quaternions (camera self)) -> List.length q = 4%nat).
Proof.
  intros Hv n. unfold valid in Hv.
  repeat (apply andb_prop in Hv; destruct Hv as [Hv ?]).
  repeat match goal with
         | H : (_ =? _) = true |- _ => apply Z.eqb_eq in H
         | H : Nat.eqb _ _ = true |- _ => apply Nat.eqb_eq in H
         | H : forallb _ _ = true |- _ => rewrite forallb_forall in H
         end.
  subst n. repeat match goal with |- _ /\ _ => split end; try lia; try assumption.
  all: intros x Hx;
    match goal with H : forall y, In y _ -> _ |- _ => specialize (H _ Hx) end.
  all: repeat match goal with
         | H : _ && _ = true |- _ => apply andb_prop in H; destruct H
         | H : Nat.eqb _ _ = true |- _ => apply Nat.eqb_eq in H
         | H : Nat.leb _ _ = true |- _ => apply Nat.leb_le in H
         end; repeat split; assumption.
Qed.

Section Integrity.
Context `{DS : Datastructures}.

Lemma getitem_beyond {A} (l : list A) idx :
  normalize_index (List.length l) idx = raise IndexError ->
  getitem l idx = raise IndexError.
Proof. intros H. unfold getitem. now rewrite H. Qed.



End Integrity.

Section Fatal.
Context `{DS : Datastructures}.


End Fatal.


(** * Further properties *)

Import Further.

(** ** The depth resolver: rounding and lookup *)

Lemma round_idempotent x : round (round x) = round x.
Proof. destruct x; cbn [round]; try reflexivity. apply round_of_int. Qed.

Lemma nth_map_round r j : nth j (map round r) NaN = round (nth j r NaN).
Proof. now rewrite (nth_map_default round r j NaN NaN). Qed.

Lemma column_round_queries a j :
  column NaN (round_queries a) j = map round (column NaN a j).
Proof.
  unfold column, round_queries. cbn [rows2]. rewrite !map_map.
  apply map_ext. intros r. apply nth_map_round.
Qed.

Lemma map_round_idempotent l : map round (map round l) = map round l.
Proof. rewrite map_map. apply map_ext. intros x. apply round_idempotent. Qed.

(** X1: the mode "nearest" is a lookup of the rounded queries: whatever
    the arguments, the resolver in mode "nearest" does what the resolver in
    any mode does on [np.round] of the queries. *)
Theorem nearest_is_lookup_of_rounded (image_space_positions : array2 fval)
    (depth_entries : array3 fval) (interpolation_type : string) :
  _image_space_to_depth image_space_positions depth_entries "nearest"
  = _image_space_to_depth (round_queries image_space_positions) depth_entries
                          interpolation_type.
Proof.
  unfold _image_space_to_depth, assert, shape2.
  replace (cols2 (round_queries image_space_positions))
    with (cols2 image_space_positions) by reflexivity.
  replace (List.length (rows2 (round_queries image_space_positions)))
    with (List.length (rows2 image_space_positions))
    by (unfold round_queries; cbn [rows2]; now rewrite length_map).
  destruct (Nat.eqb (cols2 image_space_positions) 2); [| reflexivity].
  rewrite !bind_ret.
  destruct (Nat.eqb (dim2 depth_entries) 1); [| reflexivity].
  rewrite !bind_ret.
  destruct (Scipy.init _ _ _) as [log [interp | e]]; [| reflexivity].
  cbn [bind]. rewrite !column_round_queries.
  change (String.eqb "nearest" "nearest") with true. cbv iota.
  destruct (String.eqb interpolation_type "nearest");
    now rewrite ?map_round_idempotent.
Qed.

(** ** The depth resolver: not-a-number coordinates *)

Lemma fadd_NaN_l a : fadd NaN a = NaN.
Proof. reflexivity. Qed.

Lemma fadd_NaN_r a : fadd a NaN = NaN.
Proof. now destruct a. Qed.

Lemma fmul_NaN_l a : fmul NaN a = NaN.
Proof. reflexivity. Qed.

Lemma fmul_NaN_r a : fmul a NaN = NaN.
Proof. now destruct a. Qed.

Lemma edge_weight_NaN upper : Scipy.edge_weight upper NaN = NaN.
Proof. now destruct upper. Qed.

Lemma norm_distance_NaN grid i : Scipy.norm_distance grid NaN i = NaN.
Proof. reflexivity. Qed.

Lemma evaluate_linear_NaN vals i0 i1 y0 y1 :
  y0 = NaN \/ y1 = NaN -> Scipy.evaluate_linear vals i0 i1 y0 y1 = NaN.
Proof.
  intros [-> | ->]; unfold Scipy.evaluate_linear, Scipy.edges;
    cbn [fold_left fst snd];
    rewrite ?edge_weight_NaN, ?fmul_NaN_r, ?fmul_NaN_l, ?fadd_NaN_r;
    reflexivity.
Qed.

Lemma queried_NaN mode : queried mode NaN = NaN.
Proof. unfold queried. now destruct (String.eqb mode "nearest"). Qed.

(** X2: a query with a not-a-number coordinate does not make the resolver
    fail; its row of the result is not-a-number, in every mode. *)
Theorem nan_coordinate_is_nan (positions : array2 fval) (depth : array3 fval)
    (mode : string) :
  cols2 positions = 2%nat -> dim2 depth = 1%nat ->
  (1 <= List.length (planes3 depth))%nat -> (1 <= dim1 depth)%nat ->
  exists depths,
    _image_space_to_depth positions depth mode
    = ([Interpolator_built; Interpolator_evaluated], Ok (mk_array2 1 depths))
    /\ List.length depths = List.length (rows2 positions)
    /\ forall j x y,
         nth_error (rows2 positions) j = Some [x; y] ->
         x = NaN \/ y = NaN ->
         nth_error depths j = Some [NaN].
Proof.
  intros Hc2 Hc1 HH HW. eexists. split; [| split].
  - apply resolver_run; assumption.
  - apply length_map.
  - intros j x y Hj Hnan.
    rewrite (map_nth_error _ _ _ Hj). cbn [nth]. do 2 f_equal.
    unfold Scipy.evaluate_point. cbn [fst snd].
    destruct (Scipy.point_out_of_bounds _ _); [reflexivity |].
    apply evaluate_linear_NaN.
    destruct Hnan as [-> | ->]; rewrite queried_NaN; [right | left];
      apply norm_distance_NaN.
Qed.

Lemma nan_coordinate_is_nan_witness :
  _image_space_to_depth (query NaN one) Examples.ramp "nearest"
  = ([Interpolator_built; Interpolator_evaluated], Ok (mk_array2 1 [[NaN]])).
Proof.
  destruct (nan_coordinate_is_nan (query NaN one) Examples.ramp "nearest")
    as (depths & E & Hlen & Hnan);
    [reflexivity | reflexivity | vm_compute; lia | vm_compute; lia |].
  rewrite E. specialize (Hnan 0%nat NaN one eq_refl (or_introl eq_refl)).
  destruct depths as [| d [| d' depths]]; try discriminate.
  cbn in Hnan. inversion Hnan. reflexivity.
Defined.

(** ** The depth resolver: interpolation between cells *)














(** ** Silent steps *)

Lemma getitem_Ok {A} (l : list A) idx log x :
  getitem l idx = (log, Ok x) -> getitem l idx = ret x.
Proof.
  unfold getitem.
  destruct (normalize_index_cases (List.length l) idx) as [-> | (i & _ & ->)].
  - discriminate.
  - rewrite bind_ret. destruct (nth_error l i); intros H; inversion H; reflexivity.
Qed.

Lemma take_axis1_Ok a idx log r :
  take_axis1 a idx = (log, Ok r) -> take_axis1 a idx = ret r.
Proof.
  unfold take_axis1.
  destruct (normalize_index_cases (dim1 a) idx) as [-> | (i & _ & ->)].
  - discriminate.
  - rewrite bind_ret. intros H. inversion H. reflexivity.
Qed.

Lemma mask_index_Ok a mask log r :
  mask_index a mask = (log, Ok r) ->
  mask_index a mask = ret r
  /\ List.length mask = List.length (rows2 a)
  /\ r = mk_array2 (cols2 a) (select (rows2 a) mask).
Proof.
  unfold mask_index.
  destruct (Nat.eqb (List.length mask) (List.length (rows2 a))) eqn:E;
    [| discriminate].
  apply Nat.eqb_eq in E. intros H. inversion H. auto.
Qed.

Lemma intrinsics_Ok self log k :
  intrinsics self = (log, Ok k) -> intrinsics self = ret k.
Proof.
  unfold intrinsics, truediv.
  repeat match goal with
         | |- context [if ?b then _ else _] => destruct b
         end; cbn; intros H; inversion H; reflexivity.
Qed.

(** ** Gather after scatter *)

Lemma length_select {A B} (l : list A) (l' : list B) mask :
  List.length l = List.length l' ->
  List.length (select l mask) = List.length (select l' mask).
Proof.
  revert l' mask. induction l as [| x l IH]; intros [| y l'] mask H;
    try discriminate; [now destruct mask as [| [] ?] |].
  destruct mask as [| [] mask]; cbn; auto.
Qed.

Lemma length_scatter {A} (l : list A) mask vals :
  List.length (scatter l mask vals) = List.length l.
Proof.
  revert mask vals. induction l as [| x l IH]; intros mask vals.
  - now destruct mask as [| [] ?].
  - destruct mask as [| [] mask]; cbn; [reflexivity | |].
    + destruct vals; cbn; now rewrite IH.
    + now rewrite IH.
Qed.

Lemma select_scatter {A} (l : list A) mask vals :
  List.length vals = List.length (select l mask) ->
  select (scatter l mask vals) mask = vals.
Proof.
  revert mask vals. induction l as [| x l IH]; intros mask vals H.
  - destruct mask as [| [] ?]; cbn in *; now destruct vals.
  - destruct mask as [| [] mask]; cbn in *.
    + now destruct vals.
    + destruct vals as [| v vals]; [discriminate |].
      cbn. f_equal. apply IH. now inversion H.
    + now apply IH.
Qed.

Lemma broadcast_to_same v k :
  cols2 v = 3%nat -> List.length (rows2 v) = k ->
  broadcast_to v k 3 = ret (rows2 v).
Proof.
  intros Hc Hr. unfold broadcast_to. rewrite Hc, Hr, !Nat.eqb_refl.
  cbn [orb andb]. now rewrite map_id.
Qed.

(** ** What a returned sample holds *)

Section Returned.
Context `{DS : Datastructures}.

(** X4: in every frame sample [__getitem__] returns, the particle array
    has one row per particle, and when the sparse point cloud built from
    the resolved queries and depths (with the sequence's intrinsics) has
    one 3-D point per unoccluded particle, the rows of the unoccluded
    particles are exactly these points, in their order. *)
Theorem unoccluded_particles_hold_points (self : Data) (idx : Z) log
    (sample : FrameSample) :
  __getitem__ self idx = (log, Ok sample) ->
  exists is_occluded queries depths depth k log',
    take_column (occluded self) idx = ret is_occluded
    /\ resolved_depths self idx = (log', Ok (queries, depths))
    /\ getitem (depth_video self) idx = ret depth
    /\ intrinsics self = ret k
    /\ List.length (rows2 (particle_points (particles sample)))
       = List.length is_occluded
    /\ let pts := points (from_field_of_view_points_and_depth
                            queries depths
                            (List.length (planes3 depth), dim1 depth) k) in
       (cols2 pts = 3%nat ->
        List.length (rows2 pts) = List.length (rows2 queries) ->
        select (rows2 (particle_points (particles sample))) (map negb is_occluded)
        = rows2 pts).
Proof.
  intros H. unfold __getitem__ in H.
  do 16 bind_ok H.
  inversion H; subst sample; clear H.
  match goal with
  | Edepth : getitem (depth_video self) idx = (_, Ok ?d),
    Etp : take_axis1 _ _ = (_, Ok ?tp),
    Ecol : take_column _ _ = (_, Ok ?flags),
    Emask : mask_index ?tp (map negb ?flags) = (_, Ok ?q),
    Eres : _image_space_to_depth ?q ?d _ = (?lres, Ok ?ds),
    Eassign : mask_assign _ (map negb ?flags) _ = (_, Ok ?tp3d) |- _ =>
      rename flags into is_occluded; rename tp into target_points;
      rename tp3d into target_points_3d; rename d into depth;
      rename q into queries; rename ds into depths; rename lres into log_res;
      rename Edepth into Hdepth; rename Etp into Htp; rename Ecol into Hcol;
      rename Emask into Hmask; rename Eres into Hres; rename Eassign into Hassign
  end.
  repeat match goal with
         | E : intrinsics self = (_, Ok _) |- _ => apply intrinsics_Ok in E
         end.
  match goal with
  | E1 : intrinsics self = ret ?k1, E2 : intrinsics self = ret ?k2 |- _ =>
      assert (k2 = k1) by (rewrite E1 in E2; now inversion E2); subst k2;
      rename k1 into k; rename E1 into Hk; clear E2
  end.
  apply getitem_Ok in Hdepth. apply take_axis1_Ok in Htp.
  apply take_column_Ok in Hcol.
  destruct (mask_index_Ok _ _ _ _ Hmask) as (Hmask' & Hlen & Hq).
  rewrite length_map in Hlen.
  exists is_occluded, queries, depths, depth, k, log_res.
  split; [exact Hcol |]. split.
  { unfold resolved_depths.
    rewrite Hdepth, bind_ret, Htp, bind_ret, Hcol, bind_ret, Hmask', bind_ret, Hres.
    cbn [bind ret]. now rewrite app_nil_r. }
  split; [exact Hdepth |]. split; [exact Hk |].
  unfold mask_assign, zeros in Hassign. cbn [rows2 cols2] in Hassign.
  rewrite length_map, repeat_length, Hlen, Nat.eqb_refl in Hassign.
  bind_ok Hassign. inversion Hassign; subst target_points_3d.
  cbn [particles particle_points rows2].
  split; [now rewrite length_scatter, repeat_length |].
  cbv zeta. intros Hc Hr.
  set (pts := points (from_field_of_view_points_and_depth queries depths _ k)) in *.
  match goal with E : broadcast_to _ _ _ = _ |- _ => rename E into Hb end.
  assert (Hk' : List.length (rows2 pts)
                = List.length (select (repeat (repeat zero 3) (List.length (rows2 target_points)))
                                      (map negb is_occluded))).
  { rewrite Hr, Hq. cbn [rows2]. apply length_select. now rewrite repeat_length. }
  rewrite (broadcast_to_same pts _ Hc Hk') in Hb.
  inversion Hb; subst. apply select_scatter. exact Hk'.
Qed.

End Returned.

Lemma unoccluded_particles_hold_points_witness :
  exists log sample,
    __getitem__ (DS := Pinhole.pinhole) Examples.three_frames 0 = (log, Ok sample)
    /\ List.length (rows2 (particle_points (particles sample))) = 1%nat.
Proof.
  assert (E : exists log sample,
             __getitem__ (DS := Pinhole.pinhole) Examples.three_frames 0
             = (log, Ok sample))
    by (vm_compute; eauto).
  destruct E as (log & sample & E).
  exists log, sample. split; [exact E |].
  destruct (unoccluded_particles_hold_points Examples.three_frames 0 log sample E)
    as (flags & q & d & depth & k & log' & Hflags & _ & _ & _ & Hlen & _).
  vm_compute in Hflags. inversion Hflags; subst flags. exact Hlen.
Defined.

(** ** Runs that cannot end in a given exception *)

Lemma never_raises_ret {A} e (a : A) : never_raises e (ret a).
Proof. intros log. discriminate. Qed.

Lemma never_raises_emit e ev : never_raises e (emit ev).
Proof. intros log. discriminate. Qed.

Lemma never_raises_bind {A B} e (m : M A) (k : A -> M B) :
  never_raises e m -> (forall a, never_raises e (k a)) -> never_raises e (bind m k).
Proof.
  intros Hm Hk log H. apply bind_Raise in H.
  destruct H as [H | (l1 & a & l2 & _ & H & _)].
  - exact (Hm _ H).
  - exact (Hk _ _ H).
Qed.

Lemma never_raises_after {A B} e log (a : A) (k : A -> M B) :
  never_raises e (k a) -> never_raises e (bind (log, Ok a) k).
Proof.
  intros Hk log' H. apply bind_Raise in H.
  destruct H as [H | (l1 & a' & l2 & E & H & _)]; [discriminate |].
  inversion E; subst. exact (Hk _ H).
Qed.

Lemma intrinsics_never_IndexError self : never_raises IndexError (intrinsics self).
Proof.
  unfold intrinsics.
  repeat (apply never_raises_bind;
          [unfold truediv; intros log;
           match goal with |- context [if ?b then _ else _] => destruct b end;
           discriminate
          | intros ?]).
  apply never_raises_ret.
Qed.

Lemma mask_assign_never_IndexError a mask v :
  List.length mask = List.length (rows2 a) ->
  never_raises IndexError (mask_assign a mask v).
Proof.
  intros H. unfold mask_assign. rewrite H, Nat.eqb_refl.
  apply never_raises_bind; [| intros ?; apply never_raises_ret].
  unfold broadcast_to. intros log.
  match goal with |- context [if ?b then _ else _] => destruct b end; discriminate.
Qed.

(** ** A frame request on a valid sequence *)

Lemma normalize_index_range n idx :
  normalize_index n idx = raise IndexError
  <-> idx < - Z.of_nat n \/ Z.of_nat n <= idx.
Proof.
  unfold normalize_index.
  destruct ((0 <=? idx) && (idx <? Z.of_nat n)) eqn:E1.
  - apply andb_prop in E1. destruct E1 as [H1 H2].
    apply Z.leb_le in H1. apply Z.ltb_lt in H2. split; [discriminate | lia].
  - destruct ((- Z.of_nat n <=? idx) && (idx <? 0)) eqn:E2.
    + apply andb_prop in E2. destruct E2 as [H1 H2].
      apply Z.leb_le in H1. apply Z.ltb_lt in H2. split; [discriminate | lia].
    + split; [intros _ | reflexivity].
      apply andb_false_iff in E1, E2.
      rewrite Z.leb_gt, Z.ltb_ge in E1, E2. lia.
Qed.

Lemma normalize_index_wrap n idx :
  - Z.of_nat n <= idx < 0 ->
  normalize_index n idx = normalize_index n (Z.of_nat n + idx).
Proof.
  intros H. unfold normalize_index.
  replace ((0 <=? idx) && (idx <? Z.of_nat n)) with false
    by (symmetry; apply andb_false_iff; left; apply Z.leb_gt; lia).
  replace ((- Z.of_nat n <=? idx) && (idx <? 0)) with true
    by (symmetry; apply andb_true_iff; split; [apply Z.leb_le | apply Z.ltb_lt]; lia).
  replace ((0 <=? Z.of_nat n + idx) && (Z.of_nat n + idx <? Z.of_nat n)) with true
    by (symmetry; apply andb_true_iff; split; [apply Z.leb_le | apply Z.ltb_lt]; lia).
  reflexivity.
Qed.

Lemma getitem_nth {A} (l : list A) idx i :
  normalize_index (List.length l) idx = ret i -> (i < List.length l)%nat ->
  exists x, getitem l idx = ret x /\ nth_error l i = Some x.
Proof.
  intros Hi Hlt. unfold getitem. rewrite Hi, bind_ret.
  destruct (nth_error l i) as [x |] eqn:E.
  - exists x. auto.
  - apply nth_error_None in E. lia.
Qed.

Section Run.
Context `{DS : Datastructures}.

(** On a valid sequence, a request for a frame within range resolves the
    depths of the unoccluded particles, checks them and assembles the
    sample from the data of that frame. *)
Lemma frame_run (self : Data) (idx : Z) (i : nat) :
  valid self = true ->
  normalize_index (List.length (rgb_video self)) idx = ret i ->
  (i < List.length (rgb_video self))%nat ->
  exists rgb depth pos quat,
    nth_error (rgb_video self) i = Some rgb
    /\ nth_error (depth_video self) i = Some depth
    /\ nth_error (positions (camera self)) i = Some pos
    /\ nth_error (quaternions (camera self)) i = Some quat
    /\ getitem (depth_video self) idx = ret depth
    /\ List.length pos = 3%nat /\ List.length quat = 4%nat
    /\ List.length (frame_is_occluded self i)
       = List.length (rows2 (frame_target_points self i))
    /\ resolved_depths self idx
       = ([Interpolator_built; Interpolator_evaluated],
          Ok (frame_queries self i, nearest_depths depth (frame_queries self i)))
    /\ __getitem__ self idx
       = bind ([Interpolator_built; Interpolator_evaluated], Ok tt)
           (fun _ =>
              let depths := nearest_depths depth (frame_queries self i) in
              assert (all_finite depths) (target_depths_contains_NaNs (rows2 depths)) ;;;
              assemble self rgb depth pos quat
                       (frame_target_points self i) (frame_is_occluded self i)
                       (frame_queries self i) depths).
Proof.
  intros Hv Hin Hi.
  destruct (valid_frames self Hv)
    as (Ldepth & Lpos & Lquat & Ltp & Locc & Ctp & Rocc & Fdepth & Fpos & Fquat).
  destruct (getitem_nth (rgb_video self) idx i Hin Hi) as (rgb & Ergb & Nrgb).
  destruct (getitem_nth (depth_video self) idx i) as (depth & Edepth & Ndepth);
    [now rewrite Ldepth | lia |].
  destruct (getitem_nth (positions (camera self)) idx i) as (pos & Epos & Npos);
    [now rewrite Lpos | lia |].
  destruct (getitem_nth (quaternions (camera self)) idx i) as (quat & Equat & Nquat);
    [now rewrite Lquat | lia |].
  destruct (Fdepth _ (nth_error_In _ _ Ndepth)) as (Dc & DH & DW).
  specialize (Fpos _ (nth_error_In _ _ Npos)).
  specialize (Fquat _ (nth_error_In _ _ Nquat)).
  assert (Etp : take_axis1 (target_points self) idx = ret (frame_target_points self i)).
  { unfold take_axis1. now rewrite Ltp, Hin, bind_ret. }
  assert (Eocc : take_column (occluded self) idx = ret (frame_is_occluded self i)).
  { unfold take_column. now rewrite Locc, Hin, bind_ret. }
  assert (Elen : List.length (frame_is_occluded self i)
                 = List.length (rows2 (frame_target_points self i))).
  { unfold frame_is_occluded, frame_target_points, column. cbn [rows2].
    now rewrite !length_map. }
  assert (Eunocc : mask_index (frame_target_points self i)
                              (map negb (frame_is_occluded self i))
                   = ret (frame_queries self i)).
  { unfold mask_index. now rewrite length_map, Elen, Nat.eqb_refl. }
  pose proof (resolver_run (frame_queries self i) depth "nearest" Ctp Dc DH DW) as Eres.
  change (mk_array2 1 _) with (nearest_depths depth (frame_queries self i)) in Eres.
  exists rgb, depth, pos, quat.
  repeat match goal with |- _ /\ _ => split end; try assumption.
  - unfold resolved_depths.
    rewrite Edepth, bind_ret, Etp, bind_ret, Eocc, bind_ret, Eunocc, bind_ret, Eres.
    reflexivity.
  - unfold __getitem__.
    rewrite Ergb, bind_ret, Edepth, bind_ret, Epos, bind_ret, Equat, bind_ret,
            Etp, bind_ret, Eocc, bind_ret, Eunocc, bind_ret, Eres.
    cbn [bind].
    replace (Nat.eqb (List.length (rows2 (nearest_depths depth (frame_queries self i))))
                     (List.length (rows2 (frame_queries self i)))) with true
      by (symmetry; apply Nat.eqb_eq; unfold nearest_depths; cbn [rows2];
          apply length_map).
    rewrite bind_ret. reflexivity.
Qed.

End Run.

Lemma valid_num_frames self :
  valid self = true ->
  Z.of_nat (List.length (rgb_video self)) = num_frames (metadata self).
Proof.
  intros Hv. unfold valid in Hv.
  repeat (apply andb_prop in Hv; destruct Hv as [Hv ?]).
  repeat match goal with
         | H : (_ =? _) = true |- _ => apply Z.eqb_eq in H
         end.
  assumption.
Qed.

Section Subscripts.
Context `{DS : Datastructures}.

(** X5: on a valid sequence a negative index counts frames from the end:
    a request for index [idx] in [-num_frames, 0) is the request for index
    [num_frames + idx]. *)
Theorem negative_index_wraps (self : Data) (idx : Z) :
  valid self = true ->
  - num_frames (metadata self) <= idx < 0 ->
  __getitem__ self idx = __getitem__ self (num_frames (metadata self) + idx).
Proof.
  intros Hv Hidx.
  destruct (valid_frames self Hv)
    as (Ldepth & Lpos & Lquat & Ltp & Locc & _).
  pose proof (valid_num_frames self Hv) as Hn. rewrite <- Hn in *.
  unfold __getitem__, getitem, take_axis1, take_column.
  rewrite Ldepth, Lpos, Lquat, Ltp, Locc.
  now rewrite (normalize_index_wrap _ idx Hidx).
Qed.

(** X6: on a valid sequence [__getitem__] raises [IndexError] exactly for
    the indices outside [-num_frames, num_frames). *)
Theorem index_error_iff_out_of_range (self : Data) (idx : Z) :
  valid self = true ->
  ((exists log, __getitem__ self idx = (log, Raise IndexError))
   <-> idx < - num_frames (metadata self) \/ num_frames (metadata self) <= idx).
Proof.
  intros Hv. pose proof (valid_num_frames self Hv) as Hn. rewrite <- Hn.
  rewrite <- normalize_index_range.
  destruct (normalize_index_cases (List.length (rgb_video self)) idx)
    as [Hout | (i & Hi & Hin)].
  - split; [intros _; exact Hout | intros _].
    exists []. unfold __getitem__. now rewrite (getitem_beyond _ _ Hout).
  - split; [| rewrite Hin; discriminate].
    intros (log & H). exfalso.
    destruct (frame_run self idx i Hv Hin Hi)
      as (rgb & depth & pos & quat & _ & _ & _ & _ & _ & Lp & Lq & Lo & _ & Erun).
    rewrite Erun in H. revert log H.
    apply never_raises_after. cbv zeta.
    apply never_raises_bind.
    { unfold assert. intros log. destruct (all_finite _); discriminate. }
    intros _. unfold assemble.
    apply never_raises_bind.
    { unfold build_pose. intros log.
      destruct (quat ++ pos) as [| ? [| ? [| ? [| ? [| ? [| ? [| ? [| ? ?]]]]]]]];
        discriminate. }
    intros pose.
    apply never_raises_bind; [apply intrinsics_never_IndexError | intros k].
    apply never_raises_bind; [apply never_raises_emit | intros _].
    apply never_raises_bind; [apply intrinsics_never_IndexError | intros k'].
    apply never_raises_bind; [apply never_raises_emit | intros _].
    apply never_raises_bind.
    { apply mask_assign_never_IndexError. unfold zeros. cbn [rows2].
      now rewrite length_map, repeat_length. }
    intros tp3d.
    apply never_raises_bind; [apply never_raises_emit | intros _].
    apply never_raises_ret.
Qed.


End Subscripts.

Lemma negative_index_wraps_witness :
  __getitem__ (DS := Pinhole.pinhole) Examples.three_frames (-1)
  = __getitem__ (DS := Pinhole.pinhole) Examples.three_frames 2.
Proof.
  apply (negative_index_wraps Examples.three_frames (-1)).
  - vm_compute. reflexivity.
  - vm_compute. split; [discriminate | reflexivity].
Defined.

Lemma index_error_iff_out_of_range_witness :
  exists log,
    __getitem__ (DS := Pinhole.pinhole) Examples.three_frames (-4)
    = (log, Raise IndexError).
Proof.
  apply (index_error_iff_out_of_range Examples.three_frames (-4)).
  - vm_compute. reflexivity.
  - left. vm_compute. reflexivity.
Defined.


(** ** Intrinsics and resolution *)







Import Loader (name_le).
Local Open Scope Z_scope.

(** ** The sequence loader *)

Lemma name_le_iff a b :
  name_le a b <-> a = b \/ OrderedTypeEx.String_as_OT.lt a b.
Proof.
  unfold name_le, String.leb. split.
  - destruct (String.compare a b) eqn:E; try discriminate; intros _.
    + left. now apply OrderedTypeEx.String_as_OT.cmp_eq.
    + right. now apply OrderedTypeEx.String_as_OT.cmp_lt.
  - intros [-> | H].
    + assert (E : String.compare b b = Eq)
        by now apply OrderedTypeEx.String_as_OT.cmp_eq.
      now rewrite E.
    + apply OrderedTypeEx.String_as_OT.cmp_lt in H.
      unfold OrderedTypeEx.String_as_OT.cmp in H. now rewrite H.
Qed.

Lemma name_le_trans : Transitive name_le.
Proof.
  intros a b c Hab Hbc. apply name_le_iff in Hab, Hbc. apply name_le_iff.
  destruct Hab as [-> | Hab]; [assumption |].
  destruct Hbc as [<- | Hbc]; [now right |].
  right. eapply OrderedTypeEx.String_as_OT.lt_trans; eassumption.
Qed.

Lemma name_le_antisym a b : name_le a b -> name_le b a -> a = b.
Proof. apply String.leb_antisym. Qed.

Lemma sorted_strongly (names : list string) :
  StronglySorted name_le (Loader.sorted names).
Proof.
  apply NameSort.StronglySorted_sort. exact name_le_trans.
Qed.

Lemma sorted_permutation (names : list string) :
  Permutation names (Loader.sorted names).
Proof. apply NameSort.Permuted_sort. Qed.

(** Two ascending arrangements of the same names coincide. *)
Lemma sorted_unique (l l' : list string) :
  StronglySorted name_le l -> StronglySorted name_le l' ->
  Permutation l l' -> l = l'.
Proof.
  revert l'. induction l as [| a l IH]; intros l' Hs Hs' Hp.
  - apply Permutation_nil in Hp. now subst.
  - destruct l' as [| b l'];
      [apply Permutation_sym, Permutation_nil in Hp; discriminate |].
    inversion Hs as [| ? ? Hsl Hal]; subst.
    inversion Hs' as [| ? ? Hsl' Hbl']; subst.
    assert (a = b).
    { assert (Ha : In a (b :: l'))
        by (eapply Permutation_in; [exact Hp | now left]).
      assert (Hb : In b (a :: l))
        by (eapply Permutation_in; [apply Permutation_sym; exact Hp | now left]).
      destruct Ha as [-> | Ha]; [reflexivity |].
      destruct Hb as [-> | Hb]; [reflexivity |].
      apply name_le_antisym.
      - rewrite Forall_forall in Hal. now apply Hal.
      - rewrite Forall_forall in Hbl'. now apply Hbl'. }
    subst b. f_equal. apply IH; try assumption.
    eapply Permutation_cons_inv; eassumption.
Qed.

Lemma glob_pkl_permutation (entries entries' : list string) :
  Permutation entries entries' ->
  Permutation (Loader.glob_pkl entries) (Loader.glob_pkl entries').
Proof.
  unfold Loader.glob_pkl. induction 1; cbn.
  - constructor.
  - destruct (Loader.ends_with ".pkl" x); [now constructor | assumption].
  - destruct (Loader.ends_with ".pkl" x), (Loader.ends_with ".pkl" y);
      try reflexivity; [apply perm_swap].
  - etransitivity; eassumption.
Qed.

Lemma length_sorted (names : list string) :
  List.length (Loader.sorted names) = List.length names.
Proof. symmetry. apply Permutation_length, sorted_permutation. Qed.

(** X10: the loader refuses a directory exactly when none of its names
    ends in ".pkl", with the assertion that names the directory. *)
Theorem loader_needs_a_pkl_file (entries : list string) :
  Loader.__init__ entries = inl Loader.root_dir_does_not_contain_any_pkl_files
  <-> forall name, In name entries -> Loader.ends_with ".pkl" name = false.
Proof.
  unfold Loader.__init__. rewrite length_sorted.
  destruct (Loader.glob_pkl entries) as [| f fs] eqn:E; cbn [List.length Nat.ltb Nat.leb].
  - split; [intros _ | reflexivity].
    intros name Hin. destruct (Loader.ends_with ".pkl" name) eqn:En; [| reflexivity].
    assert (Hf : In name (Loader.glob_pkl entries))
      by (apply filter_In; auto).
    rewrite E in Hf. contradiction.
  - split; [discriminate |]. intros Hnone. exfalso.
    assert (Hf : In f (Loader.glob_pkl entries)) by (rewrite E; now left).
    apply filter_In in Hf. destruct Hf as [Hin Hpkl].
    rewrite (Hnone _ Hin) in Hpkl. discriminate.
Qed.

(** X11: the file list of a loader holds exactly the listed names that end
    in ".pkl", each as often as listed, in ascending order, and the
    loader's length is their number, at least one. *)
Theorem loader_files_are_the_sorted_pkl_names (entries : list string)
    (loader : Loader.KubricSequenceLoader) :
  Loader.__init__ entries = inr loader ->
  StronglySorted name_le (Loader.files loader)
  /\ Permutation (Loader.glob_pkl entries) (Loader.files loader)
  /\ Loader.__len__ loader = Z.of_nat (List.length (Loader.glob_pkl entries))
  /\ 1 <= Loader.__len__ loader.
Proof.
  unfold Loader.__init__, Loader.__len__.
  destruct (Nat.ltb 0 _) eqn:E; [| discriminate].
  intros H. inversion H; subst loader. cbn [Loader.files].
  apply Nat.ltb_lt in E. rewrite length_sorted in *.
  repeat split.
  - apply sorted_strongly.
  - apply sorted_permutation.
  - lia.
Qed.

Lemma loader_files_are_the_sorted_pkl_names_witness :
  Loader.__init__ LoaderExamples.listing
  = inr (Loader.mk_loader ["seq_a.pkl"; "seq_b.pkl"]%string)
  /\ Loader.__len__ (Loader.mk_loader ["seq_a.pkl"; "seq_b.pkl"]%string) = 2.
Proof.
  split; [vm_compute; reflexivity |].
  destruct (loader_files_are_the_sorted_pkl_names LoaderExamples.listing
              (Loader.mk_loader ["seq_a.pkl"; "seq_b.pkl"]%string))
    as (_ & _ & Hlen & _); [vm_compute; reflexivity |].
  rewrite Hlen. reflexivity.
Defined.

(** X12: the loader does not depend on the order in which the directory
    lists its names: two listings of the same names give the same loader,
    or the same refusal. *)
Theorem loader_ignores_listing_order (entries entries' : list string) :
  Permutation entries entries' ->
  Loader.__init__ entries = Loader.__init__ entries'.
Proof.
  intros Hp. unfold Loader.__init__.
  assert (E : Loader.sorted (Loader.glob_pkl entries)
              = Loader.sorted (Loader.glob_pkl entries')).
  { apply sorted_unique; try apply sorted_strongly.
    etransitivity; [apply Permutation_sym, sorted_permutation |].
    etransitivity; [apply glob_pkl_permutation; exact Hp |].
    apply sorted_permutation. }
  now rewrite E.
Qed.

Lemma loader_ignores_listing_order_witness :
  Loader.__init__ LoaderExamples.listing
  = Loader.__init__ (rev LoaderExamples.listing).
Proof.
  apply (loader_ignores_listing_order LoaderExamples.listing
           (rev LoaderExamples.listing)).
  apply Permutation_rev.
Defined.

Lemma loader_files_are_the_sorted_pkl_names_aux (entries : list string)
    (loader : Loader.KubricSequenceLoader) :
  Loader.__init__ entries = inr loader ->
  Permutation (Loader.glob_pkl entries) (Loader.files loader).
Proof.
  unfold Loader.__init__. destruct (Nat.ltb 0 _); [| discriminate].
  intros H. inversion H. apply sorted_permutation.
Qed.

(** X13: when every listed name that ends in ".pkl" exists in the store,
    each index from 0 up to the loader's length loads a bundle: the one
    stored under a listed ".pkl" name. *)
Theorem loader_loads_every_index (entries : list string)
    (store : string -> option Data) (loader : Loader.KubricSequenceLoader)
    (idx : Z) :
  Loader.__init__ entries = inr loader ->
  (forall name, In name entries -> Loader.ends_with ".pkl" name = true ->
                store name <> None) ->
  0 <= idx < Loader.__len__ loader ->
  exists name data,
    In name entries /\ Loader.ends_with ".pkl" name = true
    /\ nth_error (Loader.files loader) (Z.to_nat idx) = Some name
    /\ store name = Some data
    /\ Loader.__getitem__ store loader idx = inr data.
Proof.
  intros Hinit Hstore Hidx.
  pose proof (loader_files_are_the_sorted_pkl_names_aux entries loader Hinit)
    as Hperm.
  unfold Loader.__len__ in Hidx.
  destruct (nth_error (Loader.files loader) (Z.to_nat idx)) as [name |] eqn:En;
    [| apply nth_error_None in En; lia].
  assert (Hin : In name (Loader.glob_pkl entries)).
  { eapply Permutation_in; [apply Permutation_sym; exact Hperm |].
    eapply nth_error_In; eassumption. }
  apply filter_In in Hin. destruct Hin as [Hin Hpkl].
  destruct (store name) as [data |] eqn:Es; [| now elim (Hstore _ Hin Hpkl)].
  exists name, data. repeat split; try assumption.
  unfold Loader.__getitem__, normalize_index.
  replace ((0 <=? idx) && (idx <? Z.of_nat (List.length (Loader.files loader))))
    with true
    by (symmetry; apply andb_true_iff; split; [apply Z.leb_le | apply Z.ltb_lt]; lia).
  cbn [ret]. rewrite En. unfold Loader.KubricSequence, Loader._load_pkl.
  now rewrite Es.
Qed.

Lemma loader_loads_every_index_witness :
  Loader.__getitem__ LoaderExamples.store
    (Loader.mk_loader ["seq_a.pkl"; "seq_b.pkl"]%string) 1
  = inr Examples.stray_frames.
Proof.
  destruct (loader_loads_every_index LoaderExamples.listing LoaderExamples.store
              (Loader.mk_loader ["seq_a.pkl"; "seq_b.pkl"]%string) 1)
    as (name & data & _ & _ & Hn & Hs & Hg).
  - vm_compute. reflexivity.
  - intros name [<- | [<- | [<- | [<- | []]]]]; vm_compute; congruence.
  - vm_compute. split; [discriminate | reflexivity].
  - rewrite Hg. f_equal. vm_compute in Hn. inversion Hn; subst name.
    vm_compute in Hs. now inversion Hs.
Defined.
